(** * enhance-align-stable-ts: the segment validity filter, the object-store
      gateway and the task-queue worker

    A shallow embedding of
      - [src/validSegmentsExtractor.ts] (class [ValidSegmentsExtractor]),
      - [src/utils/storage.ts]          (method [Storage.downloadFile]),
      - [src/rabbitmqWorker.ts]         ([validateMessage],
                                         [processAndRespondToKafka]),
    followed by the properties of the specification that concern them.

    JavaScript numbers are IEEE 754 binary64 values: they are modelled by
    Rocq's primitive [float]s, whose operations are the correctly rounded
    binary64 ones.  JavaScript strings are sequences of UTF-16 code units.
    Console output, the clock, the file system, the object store and the
    brokers are the environment: a program is a tree of calls to the
    environment ([Prog]), and an environment ([Env]) answers each call. *)

From Stdlib Require Import ZArith List Bool Lia String Ascii.
From Stdlib Require Import Floats.
From stdpp Require Import list.
Import ListNotations.

Set Default Proof Using "Type".
Set Warnings "-inexact-float,-register-all".
Local Open Scope Z_scope.

(* ===================================================================== *)
(** * JavaScript values *)
(* ===================================================================== *)

Module JS.

(** A string is its sequence of UTF-16 code units; [length] of a string is
    the number of code units, as [String.prototype.length]. *)
Definition JsString := list N.

(** An ASCII literal of the source, as code units. *)
Definition js (s : string) : JsString :=
  map N_of_ascii (list_ascii_of_string s).

Arguments js s : simpl never.

Definition str_eqb (a b : JsString) : bool := bool_decide (a = b).

(** WhiteSpace and LineTerminator code points of ECMA-262 (11.2, 11.3):
    what [String.prototype.trim] strips. *)
Definition isWhiteSpace (c : N) : bool :=
  let c := Z.of_N c in
  (c =? 0x9) || (c =? 0xA) || (c =? 0xB) || (c =? 0xC) || (c =? 0xD)
  || (c =? 0x20) || (c =? 0xA0) || (c =? 0x1680)
  || ((0x2000 <=? c) && (c <=? 0x200A))
  || (c =? 0x2028) || (c =? 0x2029) || (c =? 0x202F) || (c =? 0x205F)
  || (c =? 0x3000) || (c =? 0xFEFF).

Fixpoint trimStart (s : JsString) : JsString :=
  match s with
  | c :: rest => if isWhiteSpace c then trimStart rest else s
  | [] => []
  end.

Definition trimEnd (s : JsString) : JsString := rev (trimStart (rev s)).

(** [s.trim()] *)
Definition trim (s : JsString) : JsString := trimEnd (trimStart s).

(** ** Numbers *)

(** The Number value of an array length or of any other natural number:
    the binary64 value nearest to it (exact below 2^53, and an array has
    fewer than 2^32 elements). *)
Definition Number_of_nat (n : nat) : float :=
  SF2Prim (binary_normalize prec emax (Z.of_nat n) 0 false).

(** The text produced by [x.toFixed(3)], by its content: either the decimal
    numeral [-]d...d.ddd, given by its sign and by the integer [n] that its
    digits spell once the point is removed, or the text of
    [Number::toString(x)] when [toFixed] falls back to it. *)
Inductive FixedText : Type :=
| Decimal3 (negative : bool) (n : Z)
| Verbatim (x : float).

(** The integer nearest to [m * 2^e]; of two equally near ones, the larger
    (ECMA-262 21.1.3.3 step 11: "If there are two such n, pick the larger
    n"). *)
Definition nearestInteger (m e : Z) : Z :=
  if 0 <=? e then m * 2 ^ e
  else (2 * m + 2 ^ (- e)) / 2 ^ (- e + 1).

(** [x.toFixed(3)] (ECMA-262 21.1.3.3): a value that is not finite, or whose
    magnitude reaches 10^21, is printed by [Number::toString]; otherwise the
    magnitude is rounded to the nearest multiple of 1/1000 and the sign is
    put in front. *)
Definition toFixed3 (x : float) : FixedText :=
  match Prim2SF x with
  | S754_nan => Verbatim x
  | S754_infinity _ => Verbatim x
  | S754_zero _ => Decimal3 false 0
  | S754_finite s m e =>
      if (1e21 <=? abs x)%float then Verbatim x
      else Decimal3 s (nearestInteger (1000 * Z.pos m) e)
  end.

(** Unary [+] on the text of [toFixed]: the Number value of the numeral,
    that is the binary64 value nearest to [n / 1000] (ECMA-262 7.1.4.1.1;
    beyond 20 significant digits the standard lets an engine take either
    neighbour, the nearest one is taken here).  [Number::toString] text
    reads back as the value it was printed from. *)
Definition toNumber (t : FixedText) : float :=
  match t with
  | Verbatim x => x
  | Decimal3 s (Z.pos n) =>
      SF2Prim (SFdiv prec emax (S754_finite s n 0) (S754_finite false 1000 0))
  | Decimal3 s _ => SF2Prim (S754_zero s)
  end.

(** Strict equality and comparison of Numbers. *)
Definition num_eq (x y : float) : bool := (x =? y)%float.
Definition num_gt (x y : float) : bool := (y <? x)%float.

End JS.
Export JS.


(** ** JSON values and plain objects *)

Module Json.

(** A value that [JSON.parse] can produce, or [undefined].  An object is
    the list of its own properties in insertion order, without duplicate
    keys. *)
Inductive JVal : Type :=
| JUndefined
| JNull
| JBool (b : bool)
| JNum (x : float)
| JStr (s : JsString)
| JArr (items : list JVal)
| JObj (fields : list (JsString * JVal)).

Definition JObject := list (JsString * JVal).

(** [o.key] on a plain object: [undefined] when the property is absent. *)
Fixpoint Get (o : JObject) (key : JsString) : JVal :=
  match o with
  | [] => JUndefined
  | (k, v) :: rest => if str_eqb k key then v else Get rest key
  end.

(** [o.key = v], and [{...o, key: v}] for the object it builds: an existing
    property keeps its place and takes the new value, a new one is
    appended. *)
Fixpoint Put (o : JObject) (key : JsString) (v : JVal) : JObject :=
  match o with
  | [] => [(key, v)]
  | (k, w) :: rest =>
      if str_eqb k key then (k, v) :: rest else (k, w) :: Put rest key v
  end.

(** ToBoolean (ECMA-262 7.1.2). *)
Definition ToBoolean (v : JVal) : bool :=
  match v with
  | JUndefined | JNull => false
  | JBool b => b
  | JNum x => negb (is_zero x || is_nan x)
  | JStr s => negb (bool_decide (s = []))
  | JArr _ | JObj _ => true
  end.

(** Whether ToString (ECMA-262 7.1.17) succeeds on a parsed value, as when a
    template literal interpolates it.  A plain object is converted by its
    [toString] method and, failing that, by [valueOf]: an own property named
    "toString" hides [Object.prototype.toString] and, being parsed data, is
    not callable; [valueOf] (own and not callable, or the inherited one,
    which returns the object itself) gives no primitive, and the conversion
    throws a TypeError.  An array is converted by joining the conversions of
    its elements.  Every other value converts. *)
Fixpoint stringifies (v : JVal) : bool :=
  match v with
  | JArr items => forallb stringifies items
  | JObj fields =>
      negb (existsb (fun field => str_eqb (fst field) (js "toString")) fields)
  | _ => true
  end.
Arguments stringifies v : simpl never.

End Json.
Export Json.

(* ===================================================================== *)
(** * Programs and environments *)
(* ===================================================================== *)

Module Eff.

(** One piece of a console message: a chunk of literal text, or a value
    that a template literal interpolates or that is passed as a further
    argument.  The conversion of a Number to text is not spelled out. *)
Inductive Piece : Type :=
| Lit (s : JsString)
| Text (s : JsString)
| Num (x : float)
| Val (v : JVal).

Definition Message := list Piece.

(** [fs.Stats], as far as it is used. *)
Record Stats : Type := { stat_size : float }.

(** The calls a program makes to its environment, indexed by the type of
    the answer.  A call that can throw (or whose promise can reject)
    answers [inl error] in that case. *)
Inductive Event : Type -> Type :=
| ConsoleLog (m : Message) : Event unit
| ConsoleWarn (m : Message) : Event unit
| ConsoleError (m : Message) : Event unit
| OsTmpdir : Event JsString
| PathJoin (dir name : JsString) : Event JsString
| SetTimeout (ms : Z) : Event unit
| DateNowISO : Event JsString
| FsStatSync (path : JsString) : Event (JVal + Stats)
| FsReadFile (path encoding : JsString) : Event (JVal + JsString)
| JsonParse (text : JsString) : Event (JVal + JVal)
| MinioFGetObject (bucket name path : JsString) : Event (JVal + unit)
| KafkaSend (topic : JsString) (message : JObject) : Event (JVal + unit)
| AmqpAck : Event unit.

(** A program: it returns, throws, or calls the environment and goes on
    with the answer. *)
Inductive Prog (A : Type) : Type :=
| Ret (a : A)
| Throw (e : JVal)
| Vis (X : Type) (ev : Event X) (k : X -> Prog A).
Arguments Ret {A} a.
Arguments Throw {A} e.
Arguments Vis {A X} ev k.

Fixpoint bind {A B} (p : Prog A) (f : A -> Prog B) : Prog B :=
  match p with
  | Ret a => f a
  | Throw e => Throw e
  | Vis ev k => Vis ev (fun x => bind (k x) f)
  end.

(** [try { p } catch (error) { h error }] *)
Fixpoint try_catch {A} (p : Prog A) (h : JVal -> Prog A) : Prog A :=
  match p with
  | Ret a => Ret a
  | Throw e => h e
  | Vis ev k => Vis ev (fun x => try_catch (k x) h)
  end.

(** A call that cannot fail. *)
Definition perform {X} (ev : Event X) : Prog X := Vis ev Ret.

(** A call that throws on failure ([await] of a promise that rejects). *)
Definition await {X} (ev : Event (JVal + X)) : Prog X :=
  Vis ev (fun r => match r with inl e => Throw e | inr x => Ret x end).

(** An environment: a state and an answer to every call. *)
Record Env : Type := {
  St : Type;
  answer : forall X, Event X -> St -> X * St
}.

(** What was observed of a run: each call with its answer. *)
Inductive Entry : Type :=
| entry (X : Type) (ev : Event X) (x : X).
Arguments entry {X} ev x.

Inductive Outcome (A : Type) : Type :=
| Returned (a : A)
| Thrown (e : JVal).
Arguments Returned {A} a.
Arguments Thrown {A} e.

Record Run (E : Env) (A : Type) : Type := {
  trace : list Entry;
  outcome : Outcome A;
  final : St E
}.
Arguments trace {E A} r.
Arguments outcome {E A} r.
Arguments final {E A} r.

Fixpoint run {A} (E : Env) (p : Prog A) (s : St E) : Run E A :=
  match p with
  | Ret a => {| trace := []; outcome := Returned a; final := s |}
  | Throw e => {| trace := []; outcome := Thrown e; final := s |}
  | Vis ev k =>
      let (x, s1) := answer E _ ev s in
      let r := run E (k x) s1 in
      {| trace := entry ev x :: trace r; outcome := outcome r;
         final := final r |}
  end.

End Eff.
Export Eff.

Declare Scope prog_scope.
Delimit Scope prog_scope with prog.
Notation "x <- p ;; q" := (bind p (fun x => q))
  (at level 100, p at next level, right associativity) : prog_scope.
Notation "p ;; q" := (bind p (fun _ => q))
  (at level 100, right associativity) : prog_scope.
Open Scope prog_scope.

(* ===================================================================== *)
(** * src/validSegmentsExtractor.ts *)
(* ===================================================================== *)

Module Segment.

(** Modelled from the spec: the element type of [TextSegment.words]; the
    declaration ([./segment]) is not among the sources.  The data model gives
    a word as {token, probability: float in [0,1]}. *)
Record Word : Type := { token : JsString; probability : float }.

(** Modelled from the spec: the declaration of [TextSegment] (imported from
    [./segment], which is not among the sources).  The data model gives it
    as {startTime, endTime: numeric timestamps; rawText: string; words:
    ordered sequence of {token, probability}}.  [words] is optional here
    because the filter tests [!segment.words]. *)
Record TextSegment : Type := {
  startTime : float;
  endTime : float;
  rawText : JsString;
  words : option (list Word)
}.

End Segment.
Export Segment.

Module ValidSegmentsExtractor.

Record t : Type := {
  probabilityThreshold : float;
  enableDebugLogging : bool
}.

(** [constructor(probabilityThreshold, enableDebugLogging = false)] *)
Definition new (probabilityThreshold : float)
    (enableDebugLogging : option bool) : t :=
  {| probabilityThreshold := probabilityThreshold;
     enableDebugLogging := default false enableDebugLogging |}.

(** [words.reduce((sum, word) => sum + word.probability, 0)] *)
Definition totalProbability (ws : list Word) : float :=
  fold_left (fun sum word => (sum + probability word)%float) ws 0%float.

Definition calculateAverageProbability (ws : list Word) : float :=
  if (length ws =? 0)%nat then 0%float
  else toNumber (toFixed3 (totalProbability ws / Number_of_nat (length ws))).

Definition isEndSegment (segment : TextSegment) : bool :=
  num_eq (endTime segment) (startTime segment).

Definition logValidationDetails (this : t) (segment : TextSegment)
    (avgProbability : float) : Prog unit :=
  if enableDebugLogging this then
    perform (ConsoleLog
      [Lit (js "Segment Validation: Avg Probability = "); Num avgProbability;
       Lit (js ", Text = '"); Text (trim (rawText segment)); Lit (js "'")])
  else Ret tt.

Definition logValidation (this : t) (segment : TextSegment)
    (status : Message) : Prog unit :=
  if enableDebugLogging this then
    perform (ConsoleLog
      ([Lit (js "Validation Status: ")] ++ status ++
       [Lit (js ", Text: '"); Text (trim (rawText segment)); Lit (js "'")]))
  else Ret tt.

Definition isSegmentValid (this : t) (segment : TextSegment) : Prog bool :=
  if isEndSegment segment then
    logValidation this segment [Lit (js "Rejected: Termination segment")];;
    Ret false
  else
    match words segment with
    | None | Some [] =>
        logValidation this segment
          [Lit (js "Rejected: No words in segment")];;
        Ret false
    | Some ws =>
        let avgProbability := calculateAverageProbability ws in
        let textLength := length (trim (rawText segment)) in
        logValidationDetails this segment avgProbability;;
        if (textLength <=? 2)%nat && num_eq avgProbability 0 then
          logValidation this segment
            [Lit (js "Accepted: Special case (short text with zero probability)")];;
          Ret true
        else
          let isValid := num_gt avgProbability (probabilityThreshold this) in
          logValidation this segment
            (if isValid
             then [Lit (js "Accepted: Probability within threshold")]
             else [Lit (js "Rejected: Probability too low (");
                   Num avgProbability; Lit [0x20; 0x2264; 0x20]%N;
                   Num (probabilityThreshold this); Lit (js ")")]);;
          Ret isValid
    end.

(** The body of [for (const segment of segments)]: [validSegments] is the
    array built so far; [break] returns it. *)
Fixpoint extractLoop (this : t) (segments validSegments : list TextSegment)
    : Prog (list TextSegment) :=
  match segments with
  | [] => Ret validSegments
  | segment :: rest =>
      ok <- isSegmentValid this segment;;
      if negb ok then Ret validSegments
      else extractLoop this rest (validSegments ++ [segment])
  end.

Definition extractValidSegments (this : t) (segments : list TextSegment)
    : Prog (list TextSegment) :=
  extractLoop this segments [].

(** The result is whatever [JSON.parse] gave: the cast to [TextSegment[]]
    checks nothing at run time. *)
Definition loadSegmentsFromFile (this : t) (filePath : JsString)
    : Prog JVal :=
  try_catch
    (fileContent <- await (FsReadFile filePath (js "utf8"));;
     await (JsonParse fileContent))
    (fun error =>
       perform (ConsoleError
         [Lit (js "Error loading segments from file: "); Text filePath;
          Val error]);;
       Ret (JArr [])).

End ValidSegmentsExtractor.

(* ===================================================================== *)
(** * src/utils/storage.ts *)
(* ===================================================================== *)

Module Storage.

(** [client] is the MinIO client of [../minio/minioClient]: its methods are
    calls to the environment.  [bucketName] is [config.minio.bucketName]. *)
Record t : Type := { bucketName : JsString }.

Definition downloadFile (this : t) (fileName downloadPath : JsString)
    : Prog unit :=
  try_catch
    (await (MinioFGetObject (bucketName this) fileName downloadPath);;
     perform (ConsoleLog
       [Lit ([0xD83D; 0xDCE5]%N ++ js " File '"); Text fileName;
        Lit (js "' downloaded to '"); Text downloadPath; Lit (js "'")]))
    (fun error =>
       perform (ConsoleError
         [Lit ([0x274C]%N ++ js " Error downloading file '"); Text fileName;
          Lit (js "':"); Val error]);;
       Throw error).

End Storage.

(* ===================================================================== *)
(** * src/rabbitmqWorker.ts *)
(* ===================================================================== *)

Module Worker.

(** The constants of [./config.js] that the worker reads. *)
Record Config : Type := {
  kafka_topics_response : JsString;
  minio_bucketName : JsString
}.

(** [const storage: Storage = new Storage()] *)
Definition storage (config : Config) : Storage.t :=
  {| Storage.bucketName := minio_bucketName config |}.

(** Modelled from the spec: [sendMessageToQueue] of [./utils/kafkaHelper.js]
    is not among the sources; the worker uses it to "publish it to the
    response topic", one call to the event-log broker that can fail. *)
Definition sendMessageToQueue (topic : JsString) (message : JObject)
    : Prog unit :=
  await (KafkaSend topic message).

(** The error of [path.join] on an argument that is not a string (Node.js:
    "A TypeError is thrown if any of the path segments is not a string"). *)
Definition ERR_INVALID_ARG_TYPE : JVal :=
  JObj [(js "name", JStr (js "TypeError"));
        (js "code", JStr (js "ERR_INVALID_ARG_TYPE"))].

(** The error of a template literal whose value does not convert to text
    (V8: "Cannot convert object to primitive value"). *)
Definition TypeError_toPrimitive : JVal :=
  JObj [(js "name", JStr (js "TypeError"));
        (js "message", JStr (js "Cannot convert object to primitive value"))].

(** [console.log(`text${value}`)]: the template literal converts [value] to
    text before [console.log] is called, and throws when it cannot. *)
Definition logWithValue (text : JsString) (value : JVal) : Prog unit :=
  if stringifies value then perform (ConsoleLog [Lit text; Val value])
  else Throw TypeError_toPrimitive.

(** [requestData] has the static type [RequestData | null]: a plain object
    or [null].  The fields of the object are whatever the message carried;
    nothing checks them at run time. *)
Definition validateMessage (requestData : option JObject) : Prog bool :=
  match requestData with
  | None => Ret false
  | Some requestData =>
      if negb (ToBoolean (Get requestData (js "correlationId"))) then
        perform (ConsoleWarn
          [Lit ([0x26A0; 0xFE0F]%N
                ++ js " Message missing correlationId, ignoring.")]);;
        Ret false
      else Ret true
  end.

Definition processAndRespondToKafka (config : Config)
    (requestData : JObject) : Prog unit :=
  logWithValue
    ([0xD83D; 0xDCE5]%N ++ js " Processing request with correlationId: ")
    (Get requestData (js "correlationId"));;
  tempDir <- perform OsTmpdir;;
  match Get requestData (js "fileClaimCheck") with
  | JStr fileClaimCheck =>
      tempFilePath <- perform (PathJoin tempDir fileClaimCheck);;
      try_catch
        (perform (ConsoleLog
           [Lit ([0x2B07; 0xFE0F]%N ++ js " Downloading file '");
            Text fileClaimCheck; Lit (js "' to '"); Text tempFilePath;
            Lit (js "'...")]);;
         Storage.downloadFile (storage config) fileClaimCheck tempFilePath;;
         perform (ConsoleLog
           [Lit ([0x2705]%N ++ js " File downloaded successfully.")]);;
         fileStats <- await (FsStatSync tempFilePath);;
         perform (ConsoleLog
           [Lit ([0xD83D; 0xDCC4]%N ++ js " File Details:" ++ [0xA]%N
                 ++ js "            - Name: ");
            Text fileClaimCheck;
            Lit ([0xA]%N ++ js "            - Size: ");
            Num (stat_size fileStats);
            Lit (js " bytes" ++ [0xA]%N ++ js "            - Location: ");
            Text tempFilePath]);;
         perform (SetTimeout 1000);;
         timestamp <- perform DateNowISO;;
         let responseData :=
           Put (Put requestData (js "status") (JStr (js "Processed")))
               (js "timestamp") (JStr timestamp) in
         sendMessageToQueue (kafka_topics_response config) responseData;;
         logWithValue
           ([0xD83D; 0xDCE4]%N
            ++ js " Sent response to Kafka with correlationId: ")
           (Get responseData (js "correlationId")))
        (fun error =>
           perform (ConsoleError
             [Lit ([0x274C]%N ++ js " Error processing file '");
              Text fileClaimCheck; Lit (js "':"); Val error]))
  | _ => Throw ERR_INVALID_ARG_TYPE
  end.

(** Modelled from the spec: the parsing step of [rabbitMqMessageHandler];
    [./amqp/amqpConsumer.js] is not among the sources.  Section 4.3 of the
    specification, per job: "Validate the message: reject
    (acknowledge-and-drop, log, no response emitted) if correlationId is
    missing or the payload fails to parse as JobMessage" (a payload that
    does not parse is the [null] that [validate] receives); "Acknowledge the
    task-queue message only after the response has been durably published";
    "Any exception during steps 2-5 is caught, logged, and results in the
    message being left unacknowledged". *)
Definition parsePayload (content : JsString) : Prog (option JObject) :=
  try_catch
    (v <- await (JsonParse content);;
     Ret (match v with JObj fields => Some fields | _ => None end))
    (fun _ => Ret None).

(** Modelled from the spec: the part of [rabbitMqMessageHandler] that
    follows parsing, as quoted above: validate, then either process and
    acknowledge after the response is published, or acknowledge and drop. *)
Definition dispatch (validate : option JObject -> Prog bool)
    (process : JObject -> Prog unit) (requestData : option JObject)
    : Prog unit :=
  ok <- validate requestData;;
  match ok, requestData with
  | true, Some requestData =>
      try_catch
        (process requestData;; perform AmqpAck)
        (fun error =>
           perform (ConsoleError
             [Lit (js "Error processing message:"); Val error]))
  | _, _ => perform AmqpAck
  end.

(** Modelled from the spec: [rabbitMqMessageHandler(channel, validate,
    process)], the callback given to [channel.consume]; [content] is the
    payload of the delivered message. *)
Definition rabbitMqMessageHandler (validate : option JObject -> Prog bool)
    (process : JObject -> Prog unit) (content : JsString) : Prog unit :=
  requestData <- parsePayload content;;
  dispatch validate process requestData.

(** The handler that [startWorker] registers on the task queue. *)
Definition onMessage (config : Config) (content : JsString) : Prog unit :=
  rabbitMqMessageHandler validateMessage (processAndRespondToKafka config)
    content.

End Worker.

(* ===================================================================== *)
(** * A small environment to run the programs in *)
(* ===================================================================== *)

Module Sim.

(** The object store's bucket, the local disk (both as name/content
    pairs), the clock and the messages published so far. *)
Record World : Type := {
  objects : list (JsString * JsString);
  disk : list (JsString * JsString);
  clock : JsString;
  published : list (JsString * JObject)
}.

Fixpoint find (name : JsString) (l : list (JsString * JsString))
    : option JsString :=
  match l with
  | [] => None
  | (n, c) :: rest => if str_eqb n name then Some c else find name rest
  end.

Definition error (code : string) : JVal := JObj [(js "code", JStr (js code))].

(** [JSON.parse] restricted to the two texts used below. *)
Definition parse (text : JsString) : JVal + JVal :=
  if str_eqb text (js "[]") then inr (JArr [])
  else if str_eqb text (js "null") then inr JNull
  else inl (error "SyntaxError").

Definition answer (X : Type) (ev : Event X) : World -> X * World :=
  match ev in Event X return World -> X * World with
  | ConsoleLog _ | ConsoleWarn _ | ConsoleError _ => fun w => (tt, w)
  | OsTmpdir => fun w => (js "/tmp", w)
  | PathJoin dir name => fun w => (dir ++ js "/" ++ name, w)
  | SetTimeout _ => fun w => (tt, w)
  | DateNowISO => fun w => (clock w, w)
  | FsStatSync path => fun w =>
      match find path (disk w) with
      | Some c => (inr {| stat_size := Number_of_nat (length c) |}, w)
      | None => (inl (error "ENOENT"), w)
      end
  | FsReadFile path _ => fun w =>
      match find path (disk w) with
      | Some c => (inr c, w)
      | None => (inl (error "ENOENT"), w)
      end
  | JsonParse text => fun w => (parse text, w)
  | MinioFGetObject _ name path => fun w =>
      match find name (objects w) with
      | Some c =>
          (inr tt, {| objects := objects w; disk := (path, c) :: disk w;
                      clock := clock w; published := published w |})
      | None => (inl (error "NotFound"), w)
      end
  | KafkaSend topic message => fun w =>
      (inr tt, {| objects := objects w; disk := disk w; clock := clock w;
                  published := published w ++ [(topic, message)] |})
  | AmqpAck => fun w => (tt, w)
  end.

Definition env : Env := {| St := World; Eff.answer := answer |}.

Definition config : Worker.Config :=
  {| Worker.kafka_topics_response := js "responses";
     Worker.minio_bucketName := js "audio" |}.

Definition world : World :=
  {| objects := [(js "f1.wav", js "RIFF")];
     disk := [(js "/data/empty.json", js "[]"); (js "/data/bad.json", js "{")];
     clock := js "2025-01-01T00:00:00.000Z";
     published := [] |}.

End Sim.

(* ===================================================================== *)
(** * What is observed of a run, and the vocabulary of the specification *)
(* ===================================================================== *)

Module Obs.

(** [p] returns [a], whatever the environment answers and whatever state
    it is in. *)
Definition returns {A} (p : Prog A) (a : A) : Prop :=
  forall (E : Env) (s : St E), outcome (run E p s) = Returned a.

Definition isConsoleLog (en : Entry) : bool :=
  match en with
  | entry (ConsoleLog _) _ => true
  | _ => false
  end.

Definition isConsoleWarn (en : Entry) : bool :=
  match en with
  | entry (ConsoleWarn _) _ => true
  | _ => false
  end.

(** The downloads asked of the object store: bucket, blob name, local path
    and whether the transfer succeeded. *)
Definition download (en : Entry)
    : option (JsString * JsString * JsString * bool) :=
  match en with
  | @entry X ev x =>
      match ev in Event X
            return X -> option (JsString * JsString * JsString * bool) with
      | MinioFGetObject bucket name path => fun x =>
          Some (bucket, name, path,
                match x with inl _ => false | inr _ => true end)
      | _ => fun _ => None
      end x
  end.

Definition downloads (tr : list Entry) := omap download tr.

(** The messages handed to the event-log broker: topic and message. *)
Definition publication (en : Entry) : option (JsString * JObject) :=
  match en with
  | entry (KafkaSend topic message) _ => Some (topic, message)
  | _ => None
  end.

Definition publications (tr : list Entry) := omap publication tr.

(** The paths resolved by [path.join]: directory, name and result. *)
Definition resolution (en : Entry)
    : option (JsString * JsString * JsString) :=
  match en with
  | @entry X ev x =>
      match ev in Event X
            return X -> option (JsString * JsString * JsString) with
      | PathJoin dir name => fun x => Some (dir, name, x)
      | _ => fun _ => None
      end x
  end.

Definition resolutions (tr : list Entry) := omap resolution tr.

(** The temporary directory and the time that the environment reported. *)
Definition tmpdirOf (en : Entry) : option JsString :=
  match en with
  | @entry X ev x =>
      match ev in Event X return X -> option JsString with
      | OsTmpdir => fun x => Some x
      | _ => fun _ => None
      end x
  end.

Definition timeOf (en : Entry) : option JsString :=
  match en with
  | @entry X ev x =>
      match ev in Event X return X -> option JsString with
      | DateNowISO => fun x => Some x
      | _ => fun _ => None
      end x
  end.

(** The error, if the entry is a call that failed. *)
Definition failure (en : Entry) : option JVal :=
  match en with
  | @entry X ev x =>
      match ev in Event X return X -> option JVal with
      | FsStatSync _ => fun x => match x with inl e => Some e | _ => None end
      | FsReadFile _ _ => fun x => match x with inl e => Some e | _ => None end
      | JsonParse _ => fun x => match x with inl e => Some e | _ => None end
      | MinioFGetObject _ _ _ => fun x =>
          match x with inl e => Some e | _ => None end
      | KafkaSend _ _ => fun x => match x with inl e => Some e | _ => None end
      | _ => fun _ => None
      end x
  end.

Definition failures (tr : list Entry) := omap failure tr.

(** Whether [fs.statSync] failed. *)
Definition statFailed (en : Entry) : bool :=
  match en with
  | @entry X ev x =>
      match ev in Event X return X -> bool with
      | FsStatSync _ => fun x =>
          match x with inl _ => true | inr _ => false end
      | _ => fun _ => false
      end x
  end.

(** The errors written with [console.error], by their message. *)
Definition errorLogged (en : Entry) : option Message :=
  match en with
  | entry (ConsoleError m) _ => Some m
  | _ => None
  end.

Definition errorsLogged (tr : list Entry) := omap errorLogged tr.

(** What a run did apart from writing to the console, in order. *)
Inductive Action : Type :=
| ReadTmpdir (dir : JsString)
| Resolved (dir name path : JsString)
| Downloaded (bucket name path : JsString) (ok : bool)
| Examined (path : JsString) (ok : bool)
| Waited (ms : Z)
| ReadClock (time : JsString)
| Published (topic : JsString) (message : JObject) (ok : bool).

Definition action (en : Entry) : option Action :=
  match en with
  | @entry X ev x =>
      match ev in Event X return X -> option Action with
      | OsTmpdir => fun x => Some (ReadTmpdir x)
      | PathJoin dir name => fun x => Some (Resolved dir name x)
      | MinioFGetObject bucket name path => fun x =>
          Some (Downloaded bucket name path
                  match x with inl _ => false | inr _ => true end)
      | FsStatSync path => fun x =>
          Some (Examined path match x with inl _ => false | inr _ => true end)
      | SetTimeout ms => fun _ => Some (Waited ms)
      | DateNowISO => fun x => Some (ReadClock x)
      | KafkaSend topic message => fun x =>
          Some (Published topic message
                  match x with inl _ => false | inr _ => true end)
      | _ => fun _ => None
      end x
  end.

Definition actions (tr : list Entry) := omap action tr.

End Obs.
Export Obs.

Module Spec.
Import ValidSegmentsExtractor.

(** Section 4.2 of the specification, steps 1 to 5, in its words: an end
    marker is invalid; a segment with an empty words sequence is invalid;
    a segment whose trimmed text has at most 2 characters and whose average
    probability is 0 is valid; otherwise the segment is valid iff its
    average probability is strictly greater than the threshold. *)
Definition endMarker (segment : TextSegment) : bool :=
  num_eq (startTime segment) (endTime segment).

Definition specialCase (rawText : JsString) (avgProbability : float)
    : bool :=
  (length (trim rawText) <=? 2)%nat && num_eq avgProbability 0.

Definition valid (threshold : float) (segment : TextSegment) : bool :=
  if endMarker segment then false
  else
    match words segment with
    | None | Some [] => false
    | Some ws =>
        let avgProbability := calculateAverageProbability ws in
        specialCase (rawText segment) avgProbability
        || num_gt avgProbability threshold
    end.

(** "Return the longest prefix of segments judged valid, stopping at the
    first invalid segment." *)
Fixpoint longestValidPrefix (threshold : float)
    (segments : list TextSegment) : list TextSegment :=
  match segments with
  | [] => []
  | segment :: rest =>
      if valid threshold segment
      then segment :: longestValidPrefix threshold rest
      else []
  end.


End Spec.

(** Exact arithmetic on binary64 values, to say what a Number is near to.
    A finite Number is [+-m * 2^e] with [e >= -1074]: times [2^1074] it is
    an integer. *)
Module Binary64.
Import ValidSegmentsExtractor.







End Binary64.

(** Sample data: the segments and the job of the specification's end-to-end
    scenario, and neighbours of them. *)
Module Sample.
Import ValidSegmentsExtractor.

Definition word (p : float) : Word := {| token := js "w"; probability := p |}.

Definition segment (startTime endTime : float) (rawText : string)
    (ps : list float) : TextSegment :=
  {| startTime := startTime; endTime := endTime; rawText := js rawText;
     words := Some (map word ps) |}.

Definition hi : TextSegment := segment 0 1 "hi" [0.9%float].
Definition dots : TextSegment := segment 1 2 " .. " [0%float; 0%float].
Definition marker : TextSegment := segment 2 2 "end" [1%float].
Definition late : TextSegment := segment 2 3 "later" [1%float].
Definition atThreshold : TextSegment :=
  segment 3 4 "maybe" [0.25%float; 0.75%float].

Definition extractor : t := new 0.5 None.
Definition tracingExtractor : t := new 0.5 (Some true).

Definition job : JObject :=
  [(js "correlationId", JStr (js "c1"));
   (js "referenceTexts", JArr [JStr (js "a")]);
   (js "fileClaimCheck", JStr (js "f1.wav"))].

(** The job in the shape of the specification's section 6. *)
Definition jobAsSpecified : JObject :=
  [(js "correlationId", JStr (js "c1"));
   (js "referenceTexts", JArr [JStr (js "a")]);
   (js "claimCheck", JStr (js "f1.wav"))].

End Sample.

(* ===================================================================== *)
(** * More observations and sample data *)
(* ===================================================================== *)

Module MoreObs.

(** Whether the entry is a publication that the broker refused. *)
Definition sendFailed (en : Entry) : bool :=
  match en with
  | @entry X ev x =>
      match ev in Event X return X -> bool with
      | KafkaSend _ _ => fun x =>
          match x with inl _ => true | inr _ => false end
      | _ => fun _ => false
      end x
  end.

(** The message that [processAndRespondToKafka] writes with [console.error]
    when it catches [error]. *)
Definition processingError (fileClaimCheck : JsString) (error : JVal)
    : Message :=
  [Lit ([0x274C]%N ++ js " Error processing file '");
   Text fileClaimCheck; Lit (js "':"); Val error].

End MoreObs.
Export MoreObs.

Module Fixture.

(** A disk with a file whose content is the JSON text [null]. *)
Definition worldWithNull : Sim.World :=
  {| Sim.objects := [];
     Sim.disk := [(js "/data/null.json", js "null")];
     Sim.clock := js "2025-01-01T00:00:00.000Z";
     Sim.published := [] |}.

(** A world whose bucket is empty: every download fails. *)
Definition emptyBucket : Sim.World :=
  {| Sim.objects := [];
     Sim.disk := [];
     Sim.clock := js "2025-01-01T00:00:00.000Z";
     Sim.published := [] |}.

(** A job whose [fileClaimCheck] is a Number. *)
Definition jobWithNumber : JObject :=
  [(js "correlationId", JStr (js "c2"));
   (js "fileClaimCheck", JNum 42)].

(** A job whose [correlationId] is an object with an own [toString]. *)
Definition jobWithObjectId : JObject :=
  [(js "correlationId", JObj [(js "toString", JNull)]);
   (js "fileClaimCheck", JStr (js "f1.wav"))].

End Fixture.

(* ===================================================================== *)
(** * Programs over the remaining calls *)
(* ===================================================================== *)

Module Wide.

(** A reference to an object that the environment owns: a broker client, a
    consumer, a channel, a component of the application. *)
Definition Handle := N.

(** A listener registered with [process.on]: the closure
    [async () => await shutdownKafkaConsumer(consumer)], by the consumer it
    captures. *)
Inductive Listener : Type :=
| ShutdownListener (consumer : Handle).

(** The calls of the remaining functions: those of [Event], the other
    methods of the MinIO client, the kafkajs consumer, [process.on], the AMQP
    channel and the components that the application creates and starts.  A
    call that can throw answers [inl error] in that case. *)
Inductive Call : Type -> Type :=
| Core (X : Type) (ev : Event X) : Call X
| MinioFPutObject (bucket name path : JsString) : Call (JVal + unit)
| MinioRemoveObject (bucket name : JsString) : Call (JVal + unit)
| MinioStatObject (bucket name : JsString) : Call (JVal + unit)
| GetKafkaConnection : Call (JVal + Handle)
| KafkaConsumer (kafka : Handle) (groupId : JsString) : Call (JVal + Handle)
| ConsumerConnect (consumer : Handle) : Call (JVal + unit)
| ConsumerSubscribe (consumer : Handle) (topic : JsString)
    (fromBeginning : bool) : Call (JVal + unit)
| ConsumerRun (consumer eachMessage : Handle) : Call (JVal + unit)
| ConsumerDisconnect (consumer : Handle) : Call (JVal + unit)
| ProcessOn (signal : JsString) (listener : Listener) : Call unit
| ConnectAmqp : Call (JVal + Handle)
| ChannelConsume (channel : Handle) (queue : JsString) : Call (JVal + unit)
| NewServer : Call (JVal + Handle)
| NewRequestResponseService : Call (JVal + Handle)
| NewKafkaResponseConsumer (topic groupId : JsString)
    (requestResponseService : Handle) : Call (JVal + Handle)
| NewKafkaToRabbitMQConsumer : Call (JVal + Handle)
| ComponentStart (component : Handle) : Call (JVal + unit).
Arguments Core {X} ev.

Inductive Task (A : Type) : Type :=
| Done (a : A)
| Fail (e : JVal)
| Ask (X : Type) (c : Call X) (k : X -> Task A).
Arguments Done {A} a.
Arguments Fail {A} e.
Arguments Ask {A X} c k.

Fixpoint andThen {A B} (p : Task A) (f : A -> Task B) : Task B :=
  match p with
  | Done a => f a
  | Fail e => Fail e
  | Ask c k => Ask c (fun x => andThen (k x) f)
  end.

(** [try { p } catch (error) { h error }] *)
Fixpoint catching {A} (p : Task A) (h : JVal -> Task A) : Task A :=
  match p with
  | Done a => Done a
  | Fail e => h e
  | Ask c k => Ask c (fun x => catching (k x) h)
  end.

Definition ask {X} (c : Call X) : Task X := Ask c Done.

Definition awaiting {X} (c : Call (JVal + X)) : Task X :=
  Ask c (fun r => match r with inl e => Fail e | inr x => Done x end).

Definition consoleLog (m : Message) : Task unit := ask (Core (ConsoleLog m)).
Definition consoleError (m : Message) : Task unit :=
  ask (Core (ConsoleError m)).

(** The environment of these programs. *)
Record Host : Type := {
  HostState : Type;
  reply : forall X, Call X -> HostState -> X * HostState
}.

Inductive Step : Type :=
| step (X : Type) (c : Call X) (x : X).
Arguments step {X} c x.

Record Exec (H : Host) (A : Type) : Type := {
  steps : list Step;
  result : Outcome A;
  after : HostState H
}.
Arguments steps {H A} e.
Arguments result {H A} e.
Arguments after {H A} e.

Fixpoint exec {A} (H : Host) (p : Task A) (s : HostState H) : Exec H A :=
  match p with
  | Done a => {| steps := []; result := Returned a; after := s |}
  | Fail e => {| steps := []; result := Thrown e; after := s |}
  | Ask c k =>
      let (x, s1) := reply H _ c s in
      let r := exec H (k x) s1 in
      {| steps := step c x :: steps r; result := result r;
         after := after r |}
  end.

End Wide.
Export Wide.

Declare Scope task_scope.
Delimit Scope task_scope with task.
Notation "x <- p ;; q" := (andThen p (fun x => q))
  (at level 100, p at next level, right associativity) : task_scope.
Notation "p ;; q" := (andThen p (fun _ => q))
  (at level 100, right associativity) : task_scope.

(* ===================================================================== *)
(** * src/utils/storage.ts, the other methods *)
(* ===================================================================== *)

Module StorageOps.
Local Open Scope task_scope.

(** [Express.Multer.File], as far as it is used. *)
Record MulterFile : Type := { filename : JsString; path : JsString }.

Definition uploadFile (this : Storage.t) (fileName filePath : JsString)
    : Task unit :=
  catching
    (awaiting (MinioFPutObject (Storage.bucketName this) fileName filePath);;
     consoleLog
       [Lit ([0x2705]%N ++ js " File '"); Text fileName;
        Lit (js "' uploaded successfully")])
    (fun error =>
       consoleError
         [Lit ([0x274C]%N ++ js " Error uploading file '"); Text fileName;
          Lit (js "':"); Val error];;
       Fail error).

Definition uploadAudioFile (this : Storage.t) (file : MulterFile)
    : Task JsString :=
  uploadFile this (filename file) (path file);;
  consoleLog [Lit (js "File uploaded to MinIO: "); Text (filename file)];;
  Done (filename file).

Definition deleteFile (this : Storage.t) (fileName : JsString) : Task unit :=
  catching
    (awaiting (MinioRemoveObject (Storage.bucketName this) fileName);;
     consoleLog
       [Lit ([0xD83D; 0xDDD1; 0xFE0F]%N ++ js " File '"); Text fileName;
        Lit (js "' deleted successfully")])
    (fun error =>
       consoleError
         [Lit ([0x274C]%N ++ js " Error deleting file '"); Text fileName;
          Lit (js "':"); Val error];;
       Fail error).

(** The error of reading a property of [null] or [undefined]. *)
Definition TypeError_property : JVal :=
  JObj [(js "name", JStr (js "TypeError"))].

(** [error.code] for a caught value: a property of an object, [undefined] on
    any other value that has properties, a [TypeError] on [null] and
    [undefined]. *)
Definition codeOf (error : JVal) : JVal + JVal :=
  match error with
  | JObj fields => inr (Get fields (js "code"))
  | JNull | JUndefined => inl TypeError_property
  | _ => inr JUndefined
  end.

(** [v === 'NotFound'] *)
Definition isNotFound (v : JVal) : bool :=
  match v with
  | JStr s => str_eqb s (js "NotFound")
  | _ => false
  end.

Definition fileExists (this : Storage.t) (fileName : JsString) : Task bool :=
  catching
    (awaiting (MinioStatObject (Storage.bucketName this) fileName);;
     Done true)
    (fun error =>
       match codeOf error with
       | inl typeError => Fail typeError
       | inr code =>
           if isNotFound code then Done false
           else
             consoleError
               [Lit ([0x274C]%N ++ js " Error checking file '");
                Text fileName; Lit (js "':"); Val error];;
             Fail error
       end).

End StorageOps.

(* ===================================================================== *)
(** * src/kafka/kafkaConsumer.ts *)
(* ===================================================================== *)

Module KafkaConsumer.
Local Open Scope task_scope.

Record KafkaConsumerOptions : Type := {
  topic : JsString;
  groupId : JsString;
  eachMessageHandler : Handle
}.

Definition shutdownKafkaConsumer (consumer : Handle) : Task unit :=
  consoleLog
    [Lit ([0xD83D; 0xDD3B]%N ++ js " Shutting down Kafka Consumer...")];;
  catching
    (awaiting (ConsumerDisconnect consumer);;
     consoleLog [Lit ([0x2705]%N ++ js " Kafka Consumer disconnected.")])
    (fun error =>
       consoleError
         [Lit ([0x274C]%N ++ js " Error disconnecting Kafka Consumer:");
          Val error]).

(** What a registered listener does when its signal arrives. *)
Definition listen (listener : Listener) : Task unit :=
  match listener with
  | ShutdownListener consumer => shutdownKafkaConsumer consumer
  end.

Definition startKafkaConsumer (options : KafkaConsumerOptions) : Task unit :=
  kafka <- awaiting GetKafkaConnection;;
  consumer <- awaiting (KafkaConsumer kafka (groupId options));;
  catching
    (awaiting (ConsumerConnect consumer);;
     consoleLog
       [Lit ([0x2705]%N ++ js " Kafka Consumer connected (Group: ");
        Text (groupId options); Lit (js ")")];;
     awaiting (ConsumerSubscribe consumer (topic options) false);;
     consoleLog
       [Lit ([0xD83C; 0xDFA7]%N ++ js " Listening for messages on topic: ");
        Text (topic options)];;
     awaiting (ConsumerRun consumer (eachMessageHandler options)))
    (fun error =>
       consoleError
         [Lit ([0x274C]%N ++ js " Error starting Kafka consumer for topic ");
          Text (topic options); Lit (js ":"); Val error]);;
  ask (ProcessOn (js "SIGTERM") (ShutdownListener consumer));;
  ask (ProcessOn (js "SIGINT") (ShutdownListener consumer)).

End KafkaConsumer.

(* ===================================================================== *)
(** * src/rabbitmqWorker.ts, [startWorker] *)
(* ===================================================================== *)

Module WorkerStart.
Local Open Scope task_scope.

(** [taskQueue] is [config.rabbitmq.taskQueue].  [amqpChannel.consume] is
    called with the handler built from [validateMessage] and
    [processAndRespondToKafka], and its promise is not awaited: the call
    answers [inl error] when it throws at once. *)
Definition startWorker (taskQueue : JsString) : Task unit :=
  amqpChannel <- awaiting ConnectAmqp;;
  catching
    (consoleLog
       [Lit ([0xD83D; 0xDE80]%N ++ js " Starting RabbitMQ Worker...")];;
     awaiting (ChannelConsume amqpChannel taskQueue);;
     consoleLog
       [Lit ([0x2705]%N ++ js " RabbitMQ Consumer listening on queue: ");
        Text taskQueue])
    (fun error =>
       consoleError
         [Lit ([0x274C]%N ++ js " Failed to start worker:"); Val error]).

End WorkerStart.

(* ===================================================================== *)
(** * src/app.js (class [App]) *)
(* ===================================================================== *)

Module App.
Local Open Scope task_scope.

(** The constants of [./config.js] that the application reads. *)
Record Config : Type := {
  kafka_topics_response : JsString;
  kafka_groupId : JsString;
  server_port : JVal
}.

Record t : Type := {
  server : Handle;
  kafkaResponseConsumer : Handle;
  kafkaToRabbitMQConsumer : Handle;
  requestResponseService : Handle
}.

Definition initializeKafkaConsumer (config : Config)
    (requestResponseService : Handle) : Task Handle :=
  awaiting (NewKafkaResponseConsumer (kafka_topics_response config)
              (kafka_groupId config) requestResponseService).

(** [private constructor()] *)
Definition new (config : Config) : Task t :=
  server <- awaiting NewServer;;
  requestResponseService <- awaiting NewRequestResponseService;;
  kafkaResponseConsumer <-
    initializeKafkaConsumer config requestResponseService;;
  kafkaToRabbitMQConsumer <- awaiting NewKafkaToRabbitMQConsumer;;
  Done {| server := server;
          kafkaResponseConsumer := kafkaResponseConsumer;
          kafkaToRabbitMQConsumer := kafkaToRabbitMQConsumer;
          requestResponseService := requestResponseService |}.

(** [instance] is the static field [App.instance] before the call; the
    result is the instance returned, with the field after the call. *)
Definition getInstance (config : Config) (instance : option t)
    : Task (t * option t) :=
  match instance with
  | None => app <- new config;; Done (app, Some app)
  | Some app => Done (app, Some app)
  end.

Definition start (config : Config) (this : t) : Task unit :=
  awaiting (ComponentStart (server this));;
  awaiting (ComponentStart (kafkaResponseConsumer this));;
  awaiting (ComponentStart (kafkaToRabbitMQConsumer this));;
  consoleLog
    [Lit ([0xD83D; 0xDE80]%N ++ js " Server is running on port ");
     Val (server_port config)].

End App.

(* ===================================================================== *)
(** * What is observed of these programs, and an environment for them *)
(* ===================================================================== *)

Module WideObs.

(** The console, clock and file-system calls among the steps, as entries of
    the first kind. *)
Definition coreEntry (st : Step) : option Entry :=
  match st with
  | @step X c x =>
      match c in Call X return X -> option Entry with
      | Core ev => fun x => Some (entry ev x)
      | _ => fun _ => None
      end x
  end.

Definition console (sts : list Step) : list Entry := omap coreEntry sts.

(** The lines written with [console.log]. *)
Definition logLine (en : Entry) : option Message :=
  match en with
  | entry (ConsoleLog m) _ => Some m
  | _ => None
  end.

Definition logged (sts : list Step) : list Message :=
  omap logLine (console sts).

Definition errors (sts : list Step) : list Message :=
  errorsLogged (console sts).

Definition succeeded {X} (r : JVal + X) : bool :=
  match r with inl _ => false | inr _ => true end.

(** The requests made to the object store. *)
Inductive StoreRequest : Type :=
| PutObject (bucket name path : JsString)
| RemoveObject (bucket name : JsString)
| StatObject (bucket name : JsString).

Definition storeRequest (st : Step) : option (StoreRequest * bool) :=
  match st with
  | @step X c x =>
      match c in Call X return X -> option (StoreRequest * bool) with
      | MinioFPutObject bucket name path => fun x =>
          Some (PutObject bucket name path, succeeded x)
      | MinioRemoveObject bucket name => fun x =>
          Some (RemoveObject bucket name, succeeded x)
      | MinioStatObject bucket name => fun x =>
          Some (StatObject bucket name, succeeded x)
      | _ => fun _ => None
      end x
  end.

Definition storeRequests (sts : list Step) := omap storeRequest sts.

(** The calls made on a kafkajs consumer. *)
Inductive ConsumerCall : Type :=
| Connect
| Subscribe (topic : JsString) (fromBeginning : bool)
| RunWith (eachMessage : Handle)
| Disconnect.

Definition consumerCall (st : Step)
    : option (Handle * ConsumerCall * bool) :=
  match st with
  | @step X c x =>
      match c in Call X return X -> option (Handle * ConsumerCall * bool) with
      | ConsumerConnect consumer => fun x =>
          Some (consumer, Connect, succeeded x)
      | ConsumerSubscribe consumer topic fromBeginning => fun x =>
          Some (consumer, Subscribe topic fromBeginning, succeeded x)
      | ConsumerRun consumer eachMessage => fun x =>
          Some (consumer, RunWith eachMessage, succeeded x)
      | ConsumerDisconnect consumer => fun x =>
          Some (consumer, Disconnect, succeeded x)
      | _ => fun _ => None
      end x
  end.

Definition consumerCalls (sts : list Step) := omap consumerCall sts.

(** The consumers that [kafka.consumer] returned. *)
Definition consumerCreated (st : Step) : option Handle :=
  match st with
  | @step X c x =>
      match c in Call X return X -> option Handle with
      | KafkaConsumer _ _ => fun x =>
          match x with inl _ => None | inr consumer => Some consumer end
      | _ => fun _ => None
      end x
  end.

Definition consumersCreated (sts : list Step) := omap consumerCreated sts.

(** The listeners registered with [process.on], by signal. *)
Definition registration (st : Step) : option (JsString * Listener) :=
  match st with
  | step (ProcessOn signal listener) _ => Some (signal, listener)
  | _ => None
  end.

Definition registrations (sts : list Step) := omap registration sts.

(** The channels that [connectAmqp] returned, and the queues consumed. *)
Definition channelOpened (st : Step) : option Handle :=
  match st with
  | @step X c x =>
      match c in Call X return X -> option Handle with
      | ConnectAmqp => fun x =>
          match x with inl _ => None | inr channel => Some channel end
      | _ => fun _ => None
      end x
  end.

Definition channelsOpened (sts : list Step) := omap channelOpened sts.

Definition consumption (st : Step) : option (Handle * JsString * bool) :=
  match st with
  | @step X c x =>
      match c in Call X return X -> option (Handle * JsString * bool) with
      | ChannelConsume channel queue => fun x =>
          Some (channel, queue, succeeded x)
      | _ => fun _ => None
      end x
  end.

Definition consumptions (sts : list Step) := omap consumption sts.

(** The components that the application asked for, with the handle it got
    (none when the constructor threw), and the components it started. *)
Inductive Component : Type :=
| TheServer
| TheRequestResponseService
| TheKafkaResponseConsumer (topic groupId : JsString)
    (requestResponseService : Handle)
| TheKafkaToRabbitMQConsumer.

Definition handleOf (r : JVal + Handle) : option Handle :=
  match r with inl _ => None | inr h => Some h end.

Definition creation (st : Step) : option (Component * option Handle) :=
  match st with
  | @step X c x =>
      match c in Call X return X -> option (Component * option Handle) with
      | NewServer => fun x => Some (TheServer, handleOf x)
      | NewRequestResponseService => fun x =>
          Some (TheRequestResponseService, handleOf x)
      | NewKafkaResponseConsumer topic groupId service => fun x =>
          Some (TheKafkaResponseConsumer topic groupId service, handleOf x)
      | NewKafkaToRabbitMQConsumer => fun x =>
          Some (TheKafkaToRabbitMQConsumer, handleOf x)
      | _ => fun _ => None
      end x
  end.

Definition creations (sts : list Step) := omap creation sts.

Definition started (st : Step) : option (Handle * bool) :=
  match st with
  | @step X c x =>
      match c in Call X return X -> option (Handle * bool) with
      | ComponentStart component => fun x => Some (component, succeeded x)
      | _ => fun _ => None
      end x
  end.

Definition starts (sts : list Step) := omap started sts.

End WideObs.
Export WideObs.

Module WideSim.

(** The world of [Sim], whether the two brokers can be reached, and the next
    free handle. *)
Record World : Type := {
  core : Sim.World;
  kafkaUp : bool;
  amqpUp : bool;
  next : N
}.

Definition withCore (w : World) (c : Sim.World) : World :=
  {| core := c; kafkaUp := kafkaUp w; amqpUp := amqpUp w; next := next w |}.

Definition fresh (w : World) : (JVal + Handle) * World :=
  (inr (next w),
   {| core := core w; kafkaUp := kafkaUp w; amqpUp := amqpUp w;
      next := N.succ (next w) |}).

Definition withObjects (c : Sim.World) (objects : list (JsString * JsString))
    : Sim.World :=
  {| Sim.objects := objects; Sim.disk := Sim.disk c; Sim.clock := Sim.clock c;
     Sim.published := Sim.published c |}.

Definition reply (X : Type) (c : Call X) : World -> X * World :=
  match c in Call X return World -> X * World with
  | Core ev => fun w =>
      let (x, c') := Sim.answer _ ev (core w) in (x, withCore w c')
  | MinioFPutObject _ name path => fun w =>
      match Sim.find path (Sim.disk (core w)) with
      | Some content =>
          (inr tt,
           withCore w (withObjects (core w)
                         ((name, content) :: Sim.objects (core w))))
      | None => (inl (Sim.error "ENOENT"), w)
      end
  | MinioRemoveObject _ name => fun w =>
      (inr tt,
       withCore w (withObjects (core w)
                     (List.filter (fun o => negb (str_eqb (fst o) name))
                        (Sim.objects (core w)))))
  | MinioStatObject _ name => fun w =>
      match Sim.find name (Sim.objects (core w)) with
      | Some _ => (inr tt, w)
      | None => (inl (Sim.error "NotFound"), w)
      end
  | GetKafkaConnection => fresh
  | KafkaConsumer _ _ => fresh
  | ConsumerConnect _ => fun w =>
      (if kafkaUp w then inr tt else inl (Sim.error "ECONNREFUSED"), w)
  | ConsumerSubscribe _ _ _ => fun w => (inr tt, w)
  | ConsumerRun _ _ => fun w => (inr tt, w)
  | ConsumerDisconnect _ => fun w => (inr tt, w)
  | ProcessOn _ _ => fun w => (tt, w)
  | ConnectAmqp => fun w =>
      if amqpUp w then fresh w else (inl (Sim.error "ECONNREFUSED"), w)
  | ChannelConsume _ _ => fun w => (inr tt, w)
  | NewServer => fresh
  | NewRequestResponseService => fresh
  | NewKafkaResponseConsumer _ _ _ => fresh
  | NewKafkaToRabbitMQConsumer => fresh
  | ComponentStart _ => fun w => (inr tt, w)
  end.

Definition host : Host := {| HostState := World; Wide.reply := reply |}.

Definition world : World :=
  {| core := Sim.world; kafkaUp := true; amqpUp := true; next := 1 |}.

(** The same world with the event-log broker out of reach. *)
Definition kafkaDown : World :=
  {| core := Sim.world; kafkaUp := false; amqpUp := true; next := 1 |}.

Definition amqpDown : World :=
  {| core := Sim.world; kafkaUp := true; amqpUp := false; next := 1 |}.

Definition storage : Storage.t := {| Storage.bucketName := js "audio" |}.

Definition options : KafkaConsumer.KafkaConsumerOptions :=
  {| KafkaConsumer.topic := js "responses";
     KafkaConsumer.groupId := js "workers";
     KafkaConsumer.eachMessageHandler := 0%N |}.

Definition appConfig : App.Config :=
  {| App.kafka_topics_response := js "responses";
     App.kafka_groupId := js "workers";
     App.server_port := JNum 3000 |}.

End WideSim.

(** One step of an execution: name the environment's reply to the next
    call. *)
Ltac reply_next :=
  match goal with
  | |- context [reply ?H ?X ?c ?s] =>
      let x := fresh "x" in
      let s' := fresh "s" in
      destruct (reply H X c s) as [x s'];
      match type of x with
      | unit => destruct x
      | (_ + _)%type => destruct x as [x|x]
      | _ => idtac
      end;
      cbn
  end.

(** One step of a run: name the environment's answer to the next call. *)
Ltac answer_next :=
  match goal with
  | |- context [answer ?E ?X ?ev ?s] =>
      let x := fresh "x" in
      let s' := fresh "s" in
      destruct (answer E X ev s) as [x s'];
      match type of x with
      | unit => destruct x
      | (_ + _)%type => destruct x as [x|x]
      | _ => idtac
      end;
      cbn
  end.

(* ===================================================================== *)
(** * Numbers: comparison and rounding *)
(* ===================================================================== *)

Section Numbers.

Lemma SFcompare_Eq_sym (f1 f2 : spec_float) :
  SFcompare f1 f2 = Some Eq -> SFcompare f2 f1 = Some Eq.
Proof.
  destruct f1 as [s1| s1| |s1 m1 e1], f2 as [s2| s2| |s2 m2 e2];
    cbn; try congruence; try (destruct s1; congruence);
    try (destruct s2; congruence);
    try (destruct s1, s2; congruence).
  assert (Hm : Pos.compare_cont Eq m2 m1
               = CompOpp (Pos.compare_cont Eq m1 m2))
    by (symmetry; apply (Pos.compare_cont_antisym m1 m2 Eq)).
  rewrite (Z.compare_antisym e1 e2), Hm.
  destruct s1, s2; try congruence;
    destruct (e1 ?= e2); cbn; try congruence;
    destruct (Pos.compare_cont Eq m1 m2); cbn; congruence.
Qed.

(** [===] on Numbers is symmetric. *)
Lemma num_eq_sym (x y : float) : num_eq x y = num_eq y x.
Proof.
  unfold num_eq. rewrite !FloatAxioms.eqb_spec. unfold SFeqb.
  destruct (SFcompare (Prim2SF x) (Prim2SF y)) as [[| |]|] eqn:Hxy.
  - now rewrite (SFcompare_Eq_sym _ _ Hxy).
  - destruct (SFcompare (Prim2SF y) (Prim2SF x)) as [[| |]|] eqn:Hyx;
      try reflexivity.
    apply SFcompare_Eq_sym in Hyx. congruence.
  - destruct (SFcompare (Prim2SF y) (Prim2SF x)) as [[| |]|] eqn:Hyx;
      try reflexivity.
    apply SFcompare_Eq_sym in Hyx. congruence.
  - destruct (SFcompare (Prim2SF y) (Prim2SF x)) as [[| |]|] eqn:Hyx;
      try reflexivity.
    apply SFcompare_Eq_sym in Hyx. congruence.
Qed.

(** A Number equal to another one is not strictly greater than it. *)
Lemma num_eq_not_gt (x y : float) : num_eq x y = true -> num_gt x y = false.
Proof.
  unfold num_eq, num_gt. rewrite FloatAxioms.eqb_spec, FloatAxioms.ltb_spec. unfold SFeqb, SFltb.
  destruct (SFcompare (Prim2SF x) (Prim2SF y)) as [[| |]|] eqn:Hxy;
    try discriminate.
  now rewrite (SFcompare_Eq_sym _ _ Hxy).
Qed.


End Numbers.

(* ===================================================================== *)
(** * Runs of composed programs *)
(* ===================================================================== *)

Section Runs.

Context (E : Env).

Lemma run_bind {A B} (p : Prog A) (f : A -> Prog B) (s : St E) :
  run E (bind p f) s =
  match outcome (run E p s) with
  | Returned a =>
      let r := run E (f a) (final (run E p s)) in
      {| trace := trace (run E p s) ++ trace r; outcome := outcome r;
         final := final r |}
  | Thrown e =>
      {| trace := trace (run E p s); outcome := Thrown e;
         final := final (run E p s) |}
  end.
Proof.
  revert s. induction p as [a|e|X ev k IH]; intros s; cbn.
  - now destruct (run E (f a) s).
  - reflexivity.
  - destruct (answer E X ev s) as [x s1]. cbn. rewrite IH.
    now destruct (outcome (run E (k x) s1)).
Qed.

Lemma run_try_catch {A} (p : Prog A) (h : JVal -> Prog A) (s : St E) :
  run E (try_catch p h) s =
  match outcome (run E p s) with
  | Returned a => run E p s
  | Thrown e =>
      let r := run E (h e) (final (run E p s)) in
      {| trace := trace (run E p s) ++ trace r; outcome := outcome r;
         final := final r |}
  end.
Proof.
  revert s. induction p as [a|e|X ev k IH]; intros s; cbn.
  - reflexivity.
  - now destruct (run E (h e) s).
  - destruct (answer E X ev s) as [x s1]. cbn. rewrite IH.
    destruct (outcome (run E (k x) s1)) eqn:Ho; cbn; now rewrite ?Ho.
Qed.

End Runs.

(* ===================================================================== *)
(** * The segment validity filter *)
(* ===================================================================== *)

Section Filter.
Import ValidSegmentsExtractor.

Context (E : Env).

(** The verdict on a segment is the one of section 4.2, in every
    environment and with or without tracing; the segment's evaluation
    writes to the console only, and writes nothing when tracing is off. *)
Lemma isSegmentValid_run (this : t) (segment : TextSegment) (s : St E) :
  let r := run E (isSegmentValid this segment) s in
  outcome r = Returned (Spec.valid (probabilityThreshold this) segment)
  /\ forallb isConsoleLog (trace r) = true
  /\ (enableDebugLogging this = false -> trace r = [] /\ final r = s).
Proof.
  unfold isSegmentValid, Spec.valid, Spec.endMarker, Spec.specialCase,
    isEndSegment, logValidation, logValidationDetails.
  rewrite (num_eq_sym (startTime segment) (endTime segment)).
  destruct (num_eq (endTime segment) (startTime segment));
    [ destruct (enableDebugLogging this); cbn; repeat answer_next;
      repeat split; congruence |].
  destruct (words segment) as [[|w ws]|];
    try (destruct (enableDebugLogging this); cbn; repeat answer_next;
         repeat split; congruence).
  set (avg := calculateAverageProbability (w :: ws)).
  destruct ((length (trim (rawText segment)) <=? 2)%nat && num_eq avg 0);
    [ destruct (enableDebugLogging this); cbn; repeat answer_next;
      repeat split; congruence |].
  cbn [orb].
  destruct (num_gt avg (probabilityThreshold this));
    destruct (enableDebugLogging this); cbn; repeat answer_next;
      repeat split; congruence.
Qed.

Lemma extractLoop_run (this : t) (segments : list TextSegment) :
  forall (validSegments : list TextSegment) (s : St E),
    let r := run E (extractLoop this segments validSegments) s in
    outcome r
    = Returned (validSegments
                ++ Spec.longestValidPrefix (probabilityThreshold this)
                     segments)
    /\ forallb isConsoleLog (trace r) = true
    /\ (enableDebugLogging this = false -> trace r = [] /\ final r = s).
Proof.
  induction segments as [|segment rest IH]; intros acc s; cbn zeta.
  - cbn. rewrite app_nil_r. auto.
  - cbn [extractLoop Spec.longestValidPrefix]. rewrite run_bind.
    destruct (isSegmentValid_run this segment s) as (Ho & Hlog & Hoff).
    rewrite Ho. cbn zeta.
    destruct (Spec.valid (probabilityThreshold this) segment); cbn [negb].
    + destruct (IH (acc ++ [segment])
                  (final (run E (isSegmentValid this segment) s)))
        as (Ho' & Hlog' & Hoff').
      cbn [trace outcome final]. rewrite Ho', <- app_assoc.
      split; [reflexivity|]. split.
      * rewrite forallb_app, Hlog, Hlog'. reflexivity.
      * intros Hd. destruct (Hoff Hd) as [-> Hs], (Hoff' Hd) as [-> Hs'].
        split; [reflexivity | congruence].
    + cbn. rewrite !app_nil_r. auto.
Qed.

End Filter.

Section LongestValidPrefix.

Context (threshold : float).

Lemma longestValidPrefix_split (segments : list TextSegment) :
  exists rest,
    segments = Spec.longestValidPrefix threshold segments ++ rest
    /\ match rest with
       | [] => True
       | bad :: _ => Spec.valid threshold bad = false
       end.
Proof.
  induction segments as [|segment rest IH]; cbn.
  - now exists [].
  - destruct (Spec.valid threshold segment) eqn:Hv.
    + destruct IH as (rest' & Heq & Hbad). exists rest'.
      split; [cbn; congruence | exact Hbad].
    + now exists (segment :: rest).
Qed.

Lemma longestValidPrefix_valid (segments : list TextSegment) :
  Forall (fun segment => Spec.valid threshold segment = true)
         (Spec.longestValidPrefix threshold segments).
Proof.
  induction segments as [|segment rest IH]; cbn; [constructor|].
  destruct (Spec.valid threshold segment) eqn:Hv; now constructor.
Qed.

Lemma longestValidPrefix_stops (segments : list TextSegment) :
  forall (k : nat) (segment : TextSegment),
    segments !! k = Some segment ->
    Spec.valid threshold segment = false ->
    (length (Spec.longestValidPrefix threshold segments) <= k)%nat.
Proof.
  induction segments as [|x rest IH]; intros k segment Hk Hbad; cbn.
  - lia.
  - destruct k as [|k]; cbn in Hk.
    + injection Hk as ->. rewrite Hbad. cbn. lia.
    + destruct (Spec.valid threshold x); cbn; [|lia].
      specialize (IH k segment Hk Hbad). lia.
Qed.

End LongestValidPrefix.

Section FilterVerdicts.
Import ValidSegmentsExtractor.

Lemma returns_isSegmentValid (this : t) (segment : TextSegment) (b : bool) :
  returns (isSegmentValid this segment) b
  <-> Spec.valid (probabilityThreshold this) segment = b.
Proof.
  split.
  - intros H. specialize (H Sim.env Sim.world).
    destruct (isSegmentValid_run Sim.env this segment Sim.world) as [Ho _].
    congruence.
  - intros <- E s. apply isSegmentValid_run.
Qed.

Lemma returns_extractValidSegments (this : t)
    (segments : list TextSegment) :
  returns (extractValidSegments this segments)
          (Spec.longestValidPrefix (probabilityThreshold this) segments).
Proof.
  intros E s. unfold extractValidSegments.
  now destruct (extractLoop_run E this segments [] s) as [-> _].
Qed.

End FilterVerdicts.


(* ===================================================================== *)
(** * Properties of the segment validity filter *)
(* ===================================================================== *)

Import ValidSegmentsExtractor.

(** C1. For every sequence of segments, [extractValidSegments] returns a
    contiguous prefix of its input, in the input's order: every segment of
    the output is judged valid, and the output ends at the first segment
    judged invalid (or at the end of the input), whatever follows that
    segment. *)
Theorem extractValidSegments_longest_valid_prefix
    (this : t) (segments : list TextSegment) :
  exists kept rest : list TextSegment,
    segments = kept ++ rest
    /\ kept `prefix_of` segments
    /\ returns (extractValidSegments this segments) kept
    /\ Forall (fun segment => returns (isSegmentValid this segment) true) kept
    /\ match rest with
       | [] => True
       | bad :: _ => returns (isSegmentValid this bad) false
       end.
Proof.
  destruct (longestValidPrefix_split (probabilityThreshold this) segments)
    as (rest & Hsplit & Hbad).
  exists (Spec.longestValidPrefix (probabilityThreshold this) segments), rest.
  split; [exact Hsplit|]. split; [now exists rest|].
  split; [apply returns_extractValidSegments|]. split.
  - eapply Forall_impl; [apply longestValidPrefix_valid|].
    intros segment Hv. now apply returns_isSegmentValid.
  - destruct rest as [|bad rest']; [exact I|].
    now apply returns_isSegmentValid.
Qed.

Example extractValidSegments_sample :
  returns (extractValidSegments Sample.extractor
             [Sample.hi; Sample.dots; Sample.marker; Sample.late])
          [Sample.hi; Sample.dots].
Proof. apply (returns_extractValidSegments Sample.extractor). Qed.

(** C2. For a segment that is not an end marker and has at least one word,
    the filter judges it valid if and only if (a) its trimmed text has at
    most 2 characters and its average probability equals 0, or (b) its
    average probability is strictly greater than the threshold.  A verdict
    is always reached.  An average equal to the threshold does not satisfy
    (b): such a segment is invalid unless (a) holds; and (a) makes the
    segment valid whatever the threshold, also a positive one. *)
Theorem isSegmentValid_iff
    (this : t) (segment : TextSegment) (ws : list Word) :
  Spec.endMarker segment = false ->
  words segment = Some ws ->
  ws <> [] ->
  let avgProbability := calculateAverageProbability ws in
  let special :=
    (length (trim (rawText segment)) <= 2)%nat
    /\ num_eq avgProbability 0 = true in
  (returns (isSegmentValid this segment) true
   <-> special \/ num_gt avgProbability (probabilityThreshold this) = true)
  /\ (returns (isSegmentValid this segment) true
      \/ returns (isSegmentValid this segment) false)
  /\ (num_eq avgProbability (probabilityThreshold this) = true ->
      ~ special -> returns (isSegmentValid this segment) false)
  /\ (special -> returns (isSegmentValid this segment) true).
Proof.
  intros Hend Hws Hne avg special.
  assert (Hvalid : Spec.valid (probabilityThreshold this) segment = true
                   <-> special
                       \/ num_gt avg (probabilityThreshold this) = true).
  { unfold Spec.valid, Spec.specialCase. rewrite Hend, Hws.
    destruct ws as [|w ws']; [congruence|]. fold avg.
    rewrite orb_true_iff, andb_true_iff, Nat.leb_le. reflexivity. }
  split; [|split; [|split]].
  - rewrite returns_isSegmentValid. exact Hvalid.
  - rewrite !returns_isSegmentValid.
    destruct (Spec.valid (probabilityThreshold this) segment); auto.
  - intros Heq Hns. apply returns_isSegmentValid.
    apply not_true_is_false. intros Hv. apply Hvalid in Hv as [Hs|Hgt].
    + exact (Hns Hs).
    + rewrite (num_eq_not_gt _ _ Heq) in Hgt. discriminate.
  - intros Hs. apply returns_isSegmentValid, Hvalid. now left.
Qed.

Example isSegmentValid_at_threshold :
  calculateAverageProbability (map Sample.word [0.25%float; 0.75%float])
  = probabilityThreshold Sample.extractor
  /\ returns (isSegmentValid Sample.extractor Sample.atThreshold) false.
Proof. split; [reflexivity | now apply returns_isSegmentValid]. Qed.

Lemma isSegmentValid_iff_witness :
  Spec.endMarker Sample.dots = false
  /\ returns (isSegmentValid Sample.extractor Sample.dots) true.
Proof.
  split; [reflexivity|].
  apply (isSegmentValid_iff Sample.extractor Sample.dots
           (map Sample.word [0%float; 0%float]));
    [reflexivity | reflexivity | discriminate |].
  split; [vm_compute; lia | reflexivity].
Defined.

(** C3. If the segment at position [k] of the input is an end marker
    ([startTime == endTime]) or has no words (an empty or a missing [words]
    sequence), then it is judged invalid and the output of the filter has at
    most [k] segments, whatever follows. *)
Theorem extractValidSegments_stops_at_marker
    (this : t) (segments : list TextSegment) (k : nat)
    (segment : TextSegment) :
  segments !! k = Some segment ->
  Spec.endMarker segment = true
  \/ words segment = Some [] \/ words segment = None ->
  returns (isSegmentValid this segment) false
  /\ exists out : list TextSegment,
       returns (extractValidSegments this segments) out
       /\ (length out <= k)%nat.
Proof.
  intros Hk Hbad.
  assert (Hv : Spec.valid (probabilityThreshold this) segment = false).
  { unfold Spec.valid.
    destruct Hbad as [->|[->| ->]]; [reflexivity| |];
      now destruct (Spec.endMarker segment). }
  split; [now apply returns_isSegmentValid|].
  exists (Spec.longestValidPrefix (probabilityThreshold this) segments).
  split; [apply returns_extractValidSegments|].
  exact (longestValidPrefix_stops _ segments k segment Hk Hv).
Qed.

Lemma extractValidSegments_stops_at_marker_witness :
  [Sample.hi; Sample.marker; Sample.late] !! 1%nat = Some Sample.marker
  /\ returns (isSegmentValid Sample.extractor Sample.marker) false
  /\ exists out : list TextSegment,
       returns (extractValidSegments Sample.extractor
                  [Sample.hi; Sample.marker; Sample.late]) out
       /\ (length out <= 1)%nat.
Proof.
  split; [reflexivity|].
  apply (extractValidSegments_stops_at_marker Sample.extractor
           [Sample.hi; Sample.marker; Sample.late] 1 Sample.marker);
    [reflexivity | left; reflexivity].
Defined.

(** C7. [extractValidSegments] depends on nothing but its input and the
    threshold: in any two environments, in any states, with tracing on or
    off, it returns the same value.  Its only calls are [console.log], and
    with tracing off it makes no call and leaves the environment as it
    was. *)
Theorem extractValidSegments_deterministic
    (threshold : float) (debug1 debug2 : bool) (segments : list TextSegment)
    (E1 E2 : Env) (s1 : St E1) (s2 : St E2) :
  let this1 := {| probabilityThreshold := threshold;
                  enableDebugLogging := debug1 |} in
  let this2 := {| probabilityThreshold := threshold;
                  enableDebugLogging := debug2 |} in
  let quiet := {| probabilityThreshold := threshold;
                  enableDebugLogging := false |} in
  outcome (run E1 (extractValidSegments this1 segments) s1)
  = outcome (run E2 (extractValidSegments this2 segments) s2)
  /\ forallb isConsoleLog
       (trace (run E1 (extractValidSegments this1 segments) s1)) = true
  /\ trace (run E1 (extractValidSegments quiet segments) s1) = []
  /\ final (run E1 (extractValidSegments quiet segments) s1) = s1.
Proof.
  intros this1 this2 quiet. unfold extractValidSegments.
  destruct (extractLoop_run E1 this1 segments [] s1) as (Ho1 & Hlog & _).
  destruct (extractLoop_run E2 this2 segments [] s2) as (Ho2 & _ & _).
  destruct (extractLoop_run E1 quiet segments [] s1) as (_ & _ & Hoff).
  destruct (Hoff eq_refl) as [Htr Hfin].
  repeat split; try assumption. now rewrite Ho1, Ho2.
Qed.

Example extractValidSegments_tracing_sample :
  outcome (run Sim.env
             (extractValidSegments Sample.tracingExtractor
                [Sample.hi; Sample.dots; Sample.marker; Sample.late])
             Sim.world)
  = Returned [Sample.hi; Sample.dots]
  /\ length (trace (run Sim.env
               (extractValidSegments Sample.tracingExtractor
                  [Sample.hi; Sample.dots; Sample.marker; Sample.late])
               Sim.world)) = 5%nat.
Proof. split; vm_compute; reflexivity. Qed.



Section Rounding.











End Rounding.




(* ===================================================================== *)
(** * Plain objects *)
(* ===================================================================== *)

Section Objects.

Lemma Get_Put_eq (o : JObject) (key : JsString) (v : JVal) :
  Get (Put o key v) key = v.
Proof.
  induction o as [|[k w] rest IH]; cbn; unfold str_eqb.
  - now rewrite bool_decide_eq_true_2.
  - destruct (bool_decide (k = key)) eqn:Hk; cbn; unfold str_eqb;
      now rewrite Hk.
Qed.

Lemma Get_Put_ne (o : JObject) (key key' : JsString) (v : JVal) :
  key <> key' -> Get (Put o key v) key' = Get o key'.
Proof.
  intros Hne. induction o as [|[k w] rest IH]; cbn; unfold str_eqb.
  - now rewrite bool_decide_eq_false_2.
  - destruct (bool_decide (k = key)) eqn:Hk; cbn; unfold str_eqb.
    + apply bool_decide_eq_true_1 in Hk. subst k.
      now rewrite !bool_decide_eq_false_2.
    + destruct (bool_decide (k = key')); [reflexivity | exact IH].
Qed.

End Objects.

(* ===================================================================== *)
(** * The object-store gateway *)
(* ===================================================================== *)

(** [downloadFile] asks the client for the object once, with the bucket of
    the configuration and the name and path it was given, and ends as the
    client's call ended: it returns when the call succeeded and throws the
    client's own error when it failed.  It touches the local path in no
    other way. *)
Lemma downloadFile_forwards
    (this : Storage.t) (fileName downloadPath : JsString)
    (E : Env) (s : St E) :
  let r := run E (Storage.downloadFile this fileName downloadPath) s in
  let request :=
    MinioFGetObject (Storage.bucketName this) fileName downloadPath in
  outcome r
  = match fst (answer E _ request s) with
    | inl error => Thrown error
    | inr _ => Returned tt
    end
  /\ downloads (trace r)
     = [(Storage.bucketName this, fileName, downloadPath,
         match fst (answer E _ request s) with
         | inl _ => false
         | inr _ => true
         end)]
  /\ failures (trace r)
     = match fst (answer E _ request s) with
       | inl error => [error]
       | inr _ => []
       end.
Proof.
  unfold Storage.downloadFile. cbn.
  repeat answer_next; repeat split; reflexivity.
Qed.

(* ===================================================================== *)
(** * The task-queue worker *)
(* ===================================================================== *)

Import Worker.

(** The equations of [run], one for each shape of program. *)
Lemma run_Vis {A X} (E : Env) (ev : Event X) (k : X -> Prog A) (s : St E) :
  run E (Vis ev k) s
  = let (x, s1) := answer E X ev s in
    {| trace := entry ev x :: trace (run E (k x) s1);
       outcome := outcome (run E (k x) s1);
       final := final (run E (k x) s1) |}.
Proof. reflexivity. Qed.

Lemma run_Ret {A} (E : Env) (a : A) (s : St E) :
  run E (Ret a) s = {| trace := []; outcome := Returned a; final := s |}.
Proof. reflexivity. Qed.

Lemma run_Throw {A} (E : Env) (e : JVal) (s : St E) :
  run E (@Throw A e) s = {| trace := []; outcome := Thrown e; final := s |}.
Proof. reflexivity. Qed.

(** Steps of a run of the worker: name the environment's answer to the next
    call, or evaluate the conversion of the correlation identifier, which
    [Hid] says succeeds.  The run is kept folded between the steps. *)
Ltac worker_next Hid :=
  cbv delta [perform await]; cbn -[run];
  lazymatch goal with
  | |- context [run ?E (Vis ?ev ?k) ?s] =>
      rewrite (run_Vis E ev k s);
      let x := fresh "x" in
      let s' := fresh "s" in
      destruct (answer E _ ev s) as [x s'];
      match type of x with
      | unit => destruct x
      | (_ + _)%type => destruct x as [x|x]
      | _ => idtac
      end;
      cbn -[run]
  | |- context [run ?E (Ret ?a) ?s] => rewrite (run_Ret E a s); cbn -[run]
  | |- context [run ?E (Throw ?e) ?s] => rewrite (run_Throw E e s); cbn -[run]
  | |- context [if stringifies _ then _ else _] =>
      rewrite ?Get_Put_ne by discriminate; rewrite Hid; cbn -[run]
  end.

(** C4 (as amended). For every job that names its blob in [fileClaimCheck]
    and whose download succeeds (and whose downloaded file can be examined
    with [fs.statSync]), the worker then waits 1000 ms, which is all its
    processing, reads the clock and publishes exactly one message, to the
    response topic: the job's own fields with [status] set to "Processed"
    and [timestamp] set to the time read from the clock.  Every other field
    of the message is the job's: no segments are merged into it.  Apart from
    console output, the run is: temporary directory, path, download,
    [statSync], the wait, the clock, the publication. *)
Theorem processAndRespondToKafka_publishes_processed
    (config : Config) (requestData : JObject) (fileClaimCheck : JsString)
    (E : Env) (s : St E) :
  let r := run E (processAndRespondToKafka config requestData) s in
  Get requestData (js "fileClaimCheck") = JStr fileClaimCheck ->
  (exists bucket path : JsString,
     In (bucket, fileClaimCheck, path, true) (downloads (trace r))) ->
  existsb statFailed (trace r) = false ->
  exists (timestamp : JsString) (message : JObject),
    omap timeOf (trace r) = [timestamp]
    /\ publications (trace r) = [(kafka_topics_response config, message)]
    /\ message
       = Put (Put requestData (js "status") (JStr (js "Processed")))
             (js "timestamp") (JStr timestamp)
    /\ (exists (tempDir tempFilePath : JsString) (sent : bool),
          actions (trace r)
          = [ReadTmpdir tempDir;
             Resolved tempDir fileClaimCheck tempFilePath;
             Downloaded (minio_bucketName config) fileClaimCheck
               tempFilePath true;
             Examined tempFilePath true;
             Waited 1000;
             ReadClock timestamp;
             Published (kafka_topics_response config) message sent])
    /\ Get message (js "status") = JStr (js "Processed")
    /\ Get message (js "timestamp") = JStr timestamp
    /\ forall key : JsString,
         key <> js "status" -> key <> js "timestamp" ->
         Get message key = Get requestData key.
Proof.
  intros r Hname. subst r.
  assert (Hmsg : forall timestamp message,
            message = Put (Put requestData (js "status")
                             (JStr (js "Processed")))
                          (js "timestamp") (JStr timestamp) ->
            Get message (js "status") = JStr (js "Processed")
            /\ Get message (js "timestamp") = JStr timestamp
            /\ forall key, key <> js "status" -> key <> js "timestamp" ->
                 Get message key = Get requestData key).
  { intros timestamp message ->. split; [|split].
    - rewrite Get_Put_ne by discriminate. apply Get_Put_eq.
    - apply Get_Put_eq.
    - intros key H1 H2. now rewrite !Get_Put_ne by congruence. }
  unfold processAndRespondToKafka, logWithValue, Storage.downloadFile,
    sendMessageToQueue.
  rewrite Hname.
  destruct (stringifies (Get requestData (js "correlationId"))) eqn:Hid;
    [|cbn; intros (bucket & path & []) ].
  cbn -[run].
  repeat worker_next Hid;
    intros (bucket & path & Hin) Hstat; cbn in Hin, Hstat;
    try discriminate Hstat;
    try (destruct Hin as [Hin|[]]; discriminate Hin);
    eexists _, _;
    (split; [reflexivity|]); (split; [reflexivity|]);
    (split; [reflexivity|]);
    (split; [eexists _, _, _; reflexivity|]); now apply Hmsg.
Qed.

Lemma processAndRespondToKafka_publishes_processed_witness :
  Get Sample.job (js "fileClaimCheck") = JStr (js "f1.wav")
  /\ exists (timestamp : JsString) (message : JObject),
       publications
         (trace (run Sim.env (processAndRespondToKafka Sim.config Sample.job)
                   Sim.world))
       = [(js "responses", message)]
       /\ Get message (js "status") = JStr (js "Processed")
       /\ Get message (js "timestamp") = JStr timestamp
       /\ Get message (js "correlationId") = JStr (js "c1").
Proof.
  split; [reflexivity|].
  destruct (processAndRespondToKafka_publishes_processed
              Sim.config Sample.job (js "f1.wav") Sim.env Sim.world)
    as (timestamp & message & _ & Hpub & _ & _ & Hstatus & Htime & Hrest).
  - reflexivity.
  - exists (js "audio"), (js "/tmp/f1.wav"). left. reflexivity.
  - reflexivity.
  - exists timestamp, message.
    split; [exact Hpub|]. split; [exact Hstatus|]. split; [exact Htime|].
    rewrite Hrest; [reflexivity | discriminate | discriminate].
Defined.

(** C4 (as stated) fails: for the job of the end-to-end scenario, whose blob
    is in the bucket, the download succeeds and the only message published is
    the job with [status] and [timestamp]; it has no [segments], and no
    segment was produced or filtered on the way. *)
Lemma processAndRespondToKafka_publishes_no_segments :
  let r := run Sim.env (processAndRespondToKafka Sim.config Sample.job)
             Sim.world in
  downloads (trace r)
  = [(js "audio", js "f1.wav", js "/tmp/f1.wav", true)]
  /\ outcome r = Returned tt
  /\ publications (trace r)
     = [(js "responses",
         Sample.job ++ [(js "status", JStr (js "Processed"));
                        (js "timestamp", JStr (js "2025-01-01T00:00:00.000Z"))])]
  /\ forall topic message,
       In (topic, message) (publications (trace r)) ->
       Get message (js "segments") = JUndefined.
Proof.
  cbv zeta. split; [reflexivity|]. split; [reflexivity|].
  split; [reflexivity|].
  intros topic message [Hin|[]]. injection Hin as _ <-. reflexivity.
Qed.

(** C5 (as amended). For every job message that carries the claim-check name
    as a string in its field [fileClaimCheck], and whose [correlationId] is
    a string or any other value that converts to text for the first log
    line, the worker asks [path.join] for the path of that name under
    [os.tmpdir()], and asks the object store exactly once for a download: of
    the blob of that same name, to that path. *)
Theorem processAndRespondToKafka_downloads_fileClaimCheck
    (config : Config) (requestData : JObject) (fileClaimCheck : JsString)
    (E : Env) (s : St E) :
  let r := run E (processAndRespondToKafka config requestData) s in
  Get requestData (js "fileClaimCheck") = JStr fileClaimCheck ->
  stringifies (Get requestData (js "correlationId")) = true ->
  exists (tempDir tempFilePath : JsString) (ok : bool),
    omap tmpdirOf (trace r) = [tempDir]
    /\ resolutions (trace r) = [(tempDir, fileClaimCheck, tempFilePath)]
    /\ downloads (trace r)
       = [(minio_bucketName config, fileClaimCheck, tempFilePath, ok)].
Proof.
  intros r Hname Hid. subst r.
  unfold processAndRespondToKafka, logWithValue, Storage.downloadFile,
    sendMessageToQueue.
  rewrite Hname, Hid. cbn -[run].
  repeat worker_next Hid; eexists _, _, _; repeat split; reflexivity.
Qed.

Lemma processAndRespondToKafka_downloads_fileClaimCheck_witness :
  Get Sample.job (js "fileClaimCheck") = JStr (js "f1.wav")
  /\ stringifies (Get Sample.job (js "correlationId")) = true
  /\ exists (tempFilePath : JsString) (ok : bool),
       downloads
         (trace (run Sim.env (processAndRespondToKafka Sim.config Sample.job)
                   Sim.world))
       = [(js "audio", js "f1.wav", tempFilePath, ok)].
Proof.
  split; [reflexivity|]. split; [reflexivity|].
  destruct (processAndRespondToKafka_downloads_fileClaimCheck
              Sim.config Sample.job (js "f1.wav") Sim.env Sim.world
              eq_refl eq_refl)
    as (tempDir & tempFilePath & ok & _ & _ & Hdown).
  exists tempFilePath, ok. exact Hdown.
Defined.

(** C5 (as stated) fails: the job of the inbound shape
    {correlationId, referenceTexts, claimCheck}, carrying claimCheck
    "f1.wav", passes validation, but the worker reads [fileClaimCheck], which
    this job does not have: [path.join] throws, no path is resolved and
    nothing is downloaded, although the blob "f1.wav" is in the bucket. *)
Lemma processAndRespondToKafka_ignores_claimCheck :
  let r := run Sim.env
             (processAndRespondToKafka Sim.config Sample.jobAsSpecified)
             Sim.world in
  Get Sample.jobAsSpecified (js "claimCheck") = JStr (js "f1.wav")
  /\ Sim.find (js "f1.wav") (Sim.objects Sim.world) = Some (js "RIFF")
  /\ outcome (run Sim.env (validateMessage (Some Sample.jobAsSpecified))
                Sim.world) = Returned true
  /\ outcome r = Thrown ERR_INVALID_ARG_TYPE
  /\ resolutions (trace r) = []
  /\ downloads (trace r) = [].
Proof. cbv zeta. repeat split; reflexivity. Qed.

(** C8. A message whose parsed payload is [null], or whose [correlationId]
    is missing or empty, is rejected by [validateMessage]; the handler then
    acknowledges the message and does nothing else, whatever the processing
    step is: the step is not invoked, nothing is downloaded and nothing is
    published. *)
Theorem validateMessage_rejects_before_processing
    (requestData : option JObject) :
  requestData = None
  \/ (exists o : JObject,
        requestData = Some o
        /\ (Get o (js "correlationId") = JUndefined
            \/ Get o (js "correlationId") = JStr [])) ->
  returns (validateMessage requestData) false
  /\ forall (process : JObject -> Prog unit) (E : Env) (s : St E),
       let r := run E (dispatch validateMessage process requestData) s in
       outcome r = Returned tt
       /\ List.filter (fun en => negb (isConsoleWarn en)) (trace r)
          = [entry AmqpAck tt]
       /\ downloads (trace r) = []
       /\ publications (trace r) = [].
Proof.
  intros [->|(o & -> & Hid)].
  - split; [intros E s; reflexivity|].
    intros process E s. unfold dispatch. cbn.
    repeat answer_next. repeat split; reflexivity.
  - assert (Hfalsy : ToBoolean (Get o (js "correlationId")) = false)
      by (destruct Hid as [->| ->]; reflexivity).
    split.
    + intros E s. unfold validateMessage. rewrite Hfalsy. cbn.
      now repeat answer_next.
    + intros process E s. unfold dispatch, validateMessage.
      rewrite Hfalsy. cbn.
      repeat answer_next. repeat split; reflexivity.
Qed.

Lemma validateMessage_rejects_before_processing_witness :
  Get [(js "correlationId", JStr []); (js "fileClaimCheck", JStr (js "f1.wav"))]
      (js "correlationId") = JStr []
  /\ let r := run Sim.env
                (dispatch validateMessage (processAndRespondToKafka Sim.config)
                   (Some [(js "correlationId", JStr []);
                          (js "fileClaimCheck", JStr (js "f1.wav"))]))
                Sim.world in
     outcome r = Returned tt
     /\ downloads (trace r) = []
     /\ publications (trace r) = [].
Proof.
  split; [reflexivity|].
  destruct (validateMessage_rejects_before_processing
              (Some [(js "correlationId", JStr []);
                     (js "fileClaimCheck", JStr (js "f1.wav"))]))
    as [_ Hrun].
  - right. eexists. split; [reflexivity|]. right. reflexivity.
  - destruct (Hrun (processAndRespondToKafka Sim.config) Sim.env Sim.world)
      as (Hout & _ & Hdown & Hpub).
    cbv zeta. split; [exact Hout|]. split; [exact Hdown | exact Hpub].
Defined.

Example onMessage_valid_job :
  let r := run Sim.env
             (dispatch validateMessage (processAndRespondToKafka Sim.config)
                (Some Sample.job))
             Sim.world in
  downloads (trace r) = [(js "audio", js "f1.wav", js "/tmp/f1.wav", true)]
  /\ length (publications (trace r)) = 1%nat.
Proof. cbv zeta. split; reflexivity. Qed.

(* ===================================================================== *)
(** * Loading segments from a file *)
(* ===================================================================== *)

(** C10. [loadSegmentsFromFile] never throws: in every environment it
    returns.  When reading the file or parsing its content fails, with
    whatever error, it writes that error to [console.error] and returns the
    empty list; when neither fails it writes no error. *)
Theorem loadSegmentsFromFile_never_throws
    (this : t) (filePath : JsString) (E : Env) (s : St E) :
  let r := run E (loadSegmentsFromFile this filePath) s in
  (exists v : JVal, outcome r = Returned v)
  /\ match failures (trace r) with
     | [] => errorsLogged (trace r) = []
     | error :: _ =>
         outcome r = Returned (JArr [])
         /\ errorsLogged (trace r)
            = [[Lit (js "Error loading segments from file: ");
                Text filePath; Val error]]
     end.
Proof.
  unfold loadSegmentsFromFile. cbn.
  repeat answer_next; split; eauto.
Qed.

Example loadSegmentsFromFile_samples :
  outcome (run Sim.env (loadSegmentsFromFile Sample.extractor (js "/data/bad.json"))
             Sim.world) = Returned (JArr [])
  /\ failures (trace (run Sim.env
                 (loadSegmentsFromFile Sample.extractor (js "/data/bad.json"))
                 Sim.world)) = [Sim.error "SyntaxError"]
  /\ outcome (run Sim.env (loadSegmentsFromFile Sample.extractor (js "/nowhere"))
                Sim.world) = Returned (JArr [])
  /\ failures (trace (run Sim.env
                 (loadSegmentsFromFile Sample.extractor (js "/nowhere"))
                 Sim.world)) = [Sim.error "ENOENT"].
Proof. repeat split; reflexivity. Qed.

(* ===================================================================== *)
(** * Further properties of the segment validity filter *)
(* ===================================================================== *)

Section Ordering.

Local Ltac as_compare :=
  repeat match goal with
  | |- context [PosDef.Pos.compare_cont Eq ?p ?q] =>
      change (PosDef.Pos.compare_cont Eq p q) with (Pos.compare p q)
  end.

(** [a <= b < c] gives [a < c], on any three binary64 values. *)
Lemma SFleb_ltb_trans (a b c : spec_float) :
  SFleb a b = true -> SFltb b c = true -> SFltb a c = true.
Proof.
  unfold SFleb, SFltb.
  destruct a as [sa|sa| |sa ma ea], b as [sb|sb| |sb mb eb],
    c as [sc|sc| |sc mc ec]; cbn;
    try discriminate; try reflexivity;
    repeat match goal with s : bool |- _ => destruct s end;
    cbn; try discriminate; try reflexivity;
    as_compare;
    destruct (Z.compare_spec ea eb), (Z.compare_spec eb ec),
      (Z.compare_spec ea ec); try lia; subst; cbn;
    try discriminate; try reflexivity;
    destruct (Pos.compare_spec ma mb), (Pos.compare_spec mb mc),
      (Pos.compare_spec ma mc); try lia; subst; cbn;
    try discriminate; try reflexivity; try lia.
Qed.

Lemma num_gt_le_trans (threshold threshold' x : float) :
  (threshold <=? threshold')%float = true ->
  num_gt x threshold' = true -> num_gt x threshold = true.
Proof.
  unfold num_gt. rewrite FloatAxioms.leb_spec, !FloatAxioms.ltb_spec.
  apply SFleb_ltb_trans.
Qed.

End Ordering.

Section MoreFilter.
Import ValidSegmentsExtractor.

Lemma valid_antitone (lo hi : float) (segment : TextSegment) :
  (lo <=? hi)%float = true ->
  Spec.valid hi segment = true -> Spec.valid lo segment = true.
Proof.
  intros Hle. unfold Spec.valid.
  destruct (Spec.endMarker segment); [auto|].
  destruct (words segment) as [[|w ws]|]; auto.
  rewrite !orb_true_iff. intros [Hs|Hgt]; [now left|].
  right. exact (num_gt_le_trans lo hi _ Hle Hgt).
Qed.

Lemma longestValidPrefix_antitone (lo hi : float)
    (segments : list TextSegment) :
  (lo <=? hi)%float = true ->
  Spec.longestValidPrefix hi segments
  `prefix_of` Spec.longestValidPrefix lo segments.
Proof.
  intros Hle. induction segments as [|segment rest IH]; cbn.
  - apply prefix_nil.
  - destruct (Spec.valid hi segment) eqn:Hhi; [|apply prefix_nil].
    rewrite (valid_antitone lo hi segment Hle Hhi). now apply prefix_cons.
Qed.

Lemma longestValidPrefix_idempotent (threshold : float)
    (segments : list TextSegment) :
  Spec.longestValidPrefix threshold
    (Spec.longestValidPrefix threshold segments)
  = Spec.longestValidPrefix threshold segments.
Proof.
  induction segments as [|segment rest IH]; cbn; [reflexivity|].
  destruct (Spec.valid threshold segment) eqn:Hv; cbn; [|reflexivity].
  now rewrite Hv, IH.
Qed.

Lemma longestValidPrefix_app_valid (threshold : float)
    (front back : list TextSegment) :
  Forall (fun segment => Spec.valid threshold segment = true) front ->
  Spec.longestValidPrefix threshold (front ++ back)
  = front ++ Spec.longestValidPrefix threshold back.
Proof.
  induction 1 as [|segment rest Hv _ IH]; cbn; [reflexivity|].
  now rewrite Hv, IH.
Qed.

Lemma extractLoop_stops (this : t) (bad : TextSegment)
    (rest : list TextSegment) (E : Env) :
  Spec.valid (probabilityThreshold this) bad = false ->
  forall (front validSegments : list TextSegment) (s : St E),
    run E (extractLoop this (front ++ bad :: rest) validSegments) s
    = run E (extractLoop this (front ++ [bad]) validSegments) s.
Proof.
  intros Hbad front.
  induction front as [|segment front IH]; intros acc s;
    cbn [app extractLoop]; rewrite !run_bind.
  - destruct (isSegmentValid_run E this bad s) as [-> _].
    rewrite Hbad. reflexivity.
  - destruct (isSegmentValid_run E this segment s) as [-> _].
    destruct (Spec.valid (probabilityThreshold this) segment); cbn [negb];
      [|reflexivity].
    cbv zeta. now rewrite IH.
Qed.

End MoreFilter.

Import ValidSegmentsExtractor.

(** X1. Filtering is idempotent: the filter applied to its own output
    returns that output unchanged. *)
Theorem extractValidSegments_idempotent
    (this : t) (segments : list TextSegment) :
  exists out : list TextSegment,
    returns (extractValidSegments this segments) out
    /\ returns (extractValidSegments this out) out.
Proof.
  exists (Spec.longestValidPrefix (probabilityThreshold this) segments).
  split; [apply returns_extractValidSegments|].
  rewrite <- (longestValidPrefix_idempotent (probabilityThreshold this)
                segments) at 2.
  apply returns_extractValidSegments.
Qed.

(** X2. The scan ends at the first segment judged invalid: what follows it
    is not looked at.  Whatever follows an invalid segment, the whole run is
    the same as if the input ended with that segment: the same console
    lines, the same result, the same final state of the environment. *)
Theorem extractValidSegments_ignores_the_rest
    (this : t) (front rest : list TextSegment) (bad : TextSegment)
    (E : Env) (s : St E) :
  returns (isSegmentValid this bad) false ->
  run E (extractValidSegments this (front ++ bad :: rest)) s
  = run E (extractValidSegments this (front ++ [bad])) s.
Proof.
  intros Hbad. apply returns_isSegmentValid in Hbad.
  unfold extractValidSegments. now apply extractLoop_stops.
Qed.

Lemma extractValidSegments_ignores_the_rest_witness :
  returns (isSegmentValid Sample.tracingExtractor Sample.marker) false
  /\ run Sim.env
       (extractValidSegments Sample.tracingExtractor
          ([Sample.hi] ++ Sample.marker :: [Sample.late; Sample.dots]))
       Sim.world
     = run Sim.env
         (extractValidSegments Sample.tracingExtractor
            ([Sample.hi] ++ [Sample.marker]))
         Sim.world.
Proof.
  assert (H : returns (isSegmentValid Sample.tracingExtractor Sample.marker)
                false) by now apply returns_isSegmentValid.
  split; [exact H|].
  exact (extractValidSegments_ignores_the_rest Sample.tracingExtractor
           [Sample.hi] [Sample.late; Sample.dots] Sample.marker
           Sim.env Sim.world H).
Defined.

(** X3. The filter can be applied to an input that arrives in two parts:
    when every segment of the first part is judged valid, the output for the
    two parts joined is the first part followed by the output for the
    second. *)
Theorem extractValidSegments_app
    (this : t) (front back : list TextSegment) :
  Forall (fun segment => returns (isSegmentValid this segment) true) front ->
  exists out : list TextSegment,
    returns (extractValidSegments this back) out
    /\ returns (extractValidSegments this (front ++ back)) (front ++ out).
Proof.
  intros Hfront.
  exists (Spec.longestValidPrefix (probabilityThreshold this) back).
  split; [apply returns_extractValidSegments|].
  rewrite <- (longestValidPrefix_app_valid (probabilityThreshold this)).
  - apply returns_extractValidSegments.
  - eapply Forall_impl; [exact Hfront|].
    intros segment Hv. now apply returns_isSegmentValid.
Qed.

Lemma extractValidSegments_app_witness :
  Forall (fun segment =>
            returns (isSegmentValid Sample.extractor segment) true)
         [Sample.hi; Sample.dots]
  /\ exists out : list TextSegment,
       returns (extractValidSegments Sample.extractor
                  [Sample.late; Sample.marker]) out
       /\ returns (extractValidSegments Sample.extractor
                     ([Sample.hi; Sample.dots]
                      ++ [Sample.late; Sample.marker]))
                  ([Sample.hi; Sample.dots] ++ out).
Proof.
  assert (H : Forall (fun segment =>
                        returns (isSegmentValid Sample.extractor segment) true)
                     [Sample.hi; Sample.dots])
    by (repeat constructor; now apply returns_isSegmentValid).
  split; [exact H|].
  exact (extractValidSegments_app Sample.extractor [Sample.hi; Sample.dots]
           [Sample.late; Sample.marker] H).
Defined.

(** X4. Raising the threshold never lengthens the output: for thresholds
    [lo <= hi], the output under [hi] is a prefix of the output under [lo],
    with tracing on or off. *)
Theorem extractValidSegments_threshold_antitone
    (lo hi : float) (debugLo debugHi : bool) (segments : list TextSegment) :
  (lo <=? hi)%float = true ->
  exists outLo outHi : list TextSegment,
    returns (extractValidSegments
               {| probabilityThreshold := lo;
                  enableDebugLogging := debugLo |} segments) outLo
    /\ returns (extractValidSegments
                  {| probabilityThreshold := hi;
                     enableDebugLogging := debugHi |} segments) outHi
    /\ outHi `prefix_of` outLo.
Proof.
  intros Hle.
  exists (Spec.longestValidPrefix lo segments),
         (Spec.longestValidPrefix hi segments).
  split; [apply (returns_extractValidSegments
                   {| probabilityThreshold := lo;
                      enableDebugLogging := debugLo |})|].
  split; [apply (returns_extractValidSegments
                   {| probabilityThreshold := hi;
                      enableDebugLogging := debugHi |})|].
  now apply longestValidPrefix_antitone.
Qed.

Lemma extractValidSegments_threshold_antitone_witness :
  (0.5 <=? 0.95)%float = true
  /\ exists outLo outHi : list TextSegment,
       returns (extractValidSegments
                  {| probabilityThreshold := 0.5;
                     enableDebugLogging := false |}
                  [Sample.late; Sample.hi; Sample.marker]) outLo
       /\ returns (extractValidSegments
                     {| probabilityThreshold := 0.95;
                        enableDebugLogging := true |}
                     [Sample.late; Sample.hi; Sample.marker]) outHi
       /\ outHi `prefix_of` outLo.
Proof.
  split; [reflexivity|].
  exact (extractValidSegments_threshold_antitone 0.5 0.95 false true
           [Sample.late; Sample.hi; Sample.marker] eq_refl).
Defined.

(* ===================================================================== *)
(** * Further properties of the worker *)
(* ===================================================================== *)

Import Worker.

(** X5. When [fileClaimCheck] is a string and [correlationId] converts to
    text (as every string does), [processAndRespondToKafka] never throws:
    whatever the object store, the file system and the broker answer, it
    returns.  It asks for exactly one download and publishes at most one
    message. *)
Theorem processAndRespondToKafka_never_throws
    (config : Config) (requestData : JObject) (fileClaimCheck : JsString)
    (E : Env) (s : St E) :
  let r := run E (processAndRespondToKafka config requestData) s in
  Get requestData (js "fileClaimCheck") = JStr fileClaimCheck ->
  stringifies (Get requestData (js "correlationId")) = true ->
  outcome r = Returned tt
  /\ length (downloads (trace r)) = 1%nat
  /\ (length (publications (trace r)) <= 1)%nat.
Proof.
  intros r Hname Hid. subst r.
  unfold processAndRespondToKafka, logWithValue, Storage.downloadFile,
    sendMessageToQueue.
  rewrite Hname, Hid. cbn -[run].
  repeat worker_next Hid; repeat split; cbn; lia.
Qed.

Lemma processAndRespondToKafka_never_throws_witness :
  Get Sample.job (js "fileClaimCheck") = JStr (js "f1.wav")
  /\ stringifies (Get Sample.job (js "correlationId")) = true
  /\ outcome (run Sim.env (processAndRespondToKafka Sim.config Sample.job)
                Fixture.emptyBucket) = Returned tt.
Proof.
  split; [reflexivity|]. split; [reflexivity|].
  exact (proj1 (processAndRespondToKafka_never_throws Sim.config Sample.job
                  (js "f1.wav") Sim.env Fixture.emptyBucket eq_refl eq_refl)).
Defined.

(** X6. When [fileClaimCheck] is a string and [correlationId] converts to
    text, the first failure ends the job: at most one call fails.  When none
    fails, nothing is written to [console.error] and one message is
    published.  When one fails, the last thing written to [console.error]
    is the worker's message with that very error, and a message was handed
    to the broker only if the failure is the broker's refusal of it: after a
    failed download or a failed [statSync] nothing is published. *)
Theorem processAndRespondToKafka_failure
    (config : Config) (requestData : JObject) (fileClaimCheck : JsString)
    (E : Env) (s : St E) :
  let r := run E (processAndRespondToKafka config requestData) s in
  Get requestData (js "fileClaimCheck") = JStr fileClaimCheck ->
  stringifies (Get requestData (js "correlationId")) = true ->
  match failures (trace r) with
  | [] =>
      errorsLogged (trace r) = []
      /\ length (publications (trace r)) = 1%nat
  | error :: more =>
      more = []
      /\ last (errorsLogged (trace r))
         = Some (processingError fileClaimCheck error)
      /\ length (publications (trace r))
         = (if existsb sendFailed (trace r) then 1 else 0)%nat
  end.
Proof.
  intros r Hname Hid. subst r.
  unfold processAndRespondToKafka, logWithValue, Storage.downloadFile,
    sendMessageToQueue.
  rewrite Hname, Hid. cbn -[run].
  repeat worker_next Hid; repeat split; reflexivity.
Qed.

Lemma processAndRespondToKafka_failure_witness :
  Get Sample.job (js "fileClaimCheck") = JStr (js "f1.wav")
  /\ stringifies (Get Sample.job (js "correlationId")) = true
  /\ (@nil JVal = []
      /\ last (errorsLogged
                 (trace (run Sim.env
                           (processAndRespondToKafka Sim.config Sample.job)
                           Fixture.emptyBucket)))
         = Some (processingError (js "f1.wav") (Sim.error "NotFound"))
      /\ length (publications
                   (trace (run Sim.env
                             (processAndRespondToKafka Sim.config Sample.job)
                             Fixture.emptyBucket)))
         = 0%nat).
Proof.
  split; [reflexivity|]. split; [reflexivity|].
  exact (processAndRespondToKafka_failure Sim.config Sample.job
           (js "f1.wav") Sim.env Fixture.emptyBucket eq_refl eq_refl).
Defined.

(** X7. Validation does not look at [fileClaimCheck].  A message whose
    [correlationId] is truthy and converts to text (as every non-empty
    string does) and whose [fileClaimCheck] is not a string is accepted by
    [validateMessage]; [processAndRespondToKafka] then throws the [TypeError]
    of [path.join], which its [try] does not cover: nothing is resolved,
    downloaded or published, and nothing is written to [console.error]. *)
Theorem processAndRespondToKafka_throws_without_name
    (config : Config) (requestData : JObject) (E : Env) (s : St E) :
  let r := run E (processAndRespondToKafka config requestData) s in
  ToBoolean (Get requestData (js "correlationId")) = true ->
  stringifies (Get requestData (js "correlationId")) = true ->
  (forall name : JsString,
     Get requestData (js "fileClaimCheck") <> JStr name) ->
  returns (validateMessage (Some requestData)) true
  /\ outcome r = Thrown ERR_INVALID_ARG_TYPE
  /\ resolutions (trace r) = []
  /\ downloads (trace r) = []
  /\ publications (trace r) = []
  /\ errorsLogged (trace r) = [].
Proof.
  intros r Htruthy Hid Hname. subst r. split.
  - intros E' s'. unfold validateMessage. now rewrite Htruthy.
  - unfold processAndRespondToKafka, logWithValue. rewrite Hid.
    destruct (Get requestData (js "fileClaimCheck")) as [| | | |name| |];
      try (now destruct (Hname name));
      cbn; repeat answer_next; repeat split; reflexivity.
Qed.

Lemma processAndRespondToKafka_throws_without_name_witness :
  ToBoolean (Get Fixture.jobWithNumber (js "correlationId")) = true
  /\ stringifies (Get Fixture.jobWithNumber (js "correlationId")) = true
  /\ returns (validateMessage (Some Fixture.jobWithNumber)) true
  /\ outcome (run Sim.env
                (processAndRespondToKafka Sim.config Fixture.jobWithNumber)
                Sim.world)
     = Thrown ERR_INVALID_ARG_TYPE.
Proof.
  split; [reflexivity|]. split; [reflexivity|].
  destruct (processAndRespondToKafka_throws_without_name Sim.config
              Fixture.jobWithNumber Sim.env Sim.world eq_refl eq_refl)
    as (Hvalid & Hthrown & _).
  - intros name. discriminate.
  - split; [exact Hvalid | exact Hthrown].
Defined.

Lemma unprintable_is_truthy (v : JVal) :
  stringifies v = false -> ToBoolean v = true.
Proof. destruct v; intros H; try reflexivity; discriminate H. Qed.

(** X20. Validation does not check that [correlationId] can be written to
    the log.  A message whose [correlationId] does not convert to text (an
    object with an own [toString] property, or an array holding one) is
    accepted by [validateMessage]; [processAndRespondToKafka] then throws a
    [TypeError] at its first log line, before its [try]: it makes no call at
    all, so nothing is written, resolved, downloaded or published, even when
    [fileClaimCheck] names an existing blob. *)
Theorem processAndRespondToKafka_throws_on_unprintable_id
    (config : Config) (requestData : JObject) (E : Env) (s : St E) :
  stringifies (Get requestData (js "correlationId")) = false ->
  returns (validateMessage (Some requestData)) true
  /\ run E (processAndRespondToKafka config requestData) s
     = {| trace := []; outcome := Thrown TypeError_toPrimitive; final := s |}.
Proof.
  intros Hid. split.
  - intros E' s'. unfold validateMessage.
    now rewrite (unprintable_is_truthy _ Hid).
  - unfold processAndRespondToKafka, logWithValue. now rewrite Hid.
Qed.

Lemma processAndRespondToKafka_throws_on_unprintable_id_witness :
  stringifies (Get Fixture.jobWithObjectId (js "correlationId")) = false
  /\ Get Fixture.jobWithObjectId (js "fileClaimCheck") = JStr (js "f1.wav")
  /\ returns (validateMessage (Some Fixture.jobWithObjectId)) true
  /\ outcome (run Sim.env
                (processAndRespondToKafka Sim.config Fixture.jobWithObjectId)
                Sim.world)
     = Thrown TypeError_toPrimitive.
Proof.
  split; [reflexivity|]. split; [reflexivity|].
  destruct (processAndRespondToKafka_throws_on_unprintable_id Sim.config
              Fixture.jobWithObjectId Sim.env Sim.world eq_refl)
    as [Hvalid Hrun].
  split; [exact Hvalid|]. now rewrite Hrun.
Defined.

(* ===================================================================== *)
(** * Further properties of loading segments *)
(* ===================================================================== *)

(** X9. When the file is read and its content parses, [loadSegmentsFromFile]
    returns the parsed value as it is, segment list or not (the cast to
    [TextSegment[]] checks nothing): it reads the file once, as UTF-8,
    parses exactly what it read, and writes nothing to the console. *)
Theorem loadSegmentsFromFile_returns_parsed
    (this : t) (filePath content : JsString) (v : JVal)
    (E : Env) (s s1 s2 : St E) :
  answer E _ (FsReadFile filePath (js "utf8")) s = (inr content, s1) ->
  answer E _ (JsonParse content) s1 = (inr v, s2) ->
  run E (loadSegmentsFromFile this filePath) s
  = {| trace := [entry (FsReadFile filePath (js "utf8")) (inr content);
                 entry (JsonParse content) (inr v)];
       outcome := Returned v;
       final := s2 |}.
Proof.
  intros Hread Hparse. unfold loadSegmentsFromFile. cbn.
  rewrite Hread. cbn. rewrite Hparse. reflexivity.
Qed.

Lemma loadSegmentsFromFile_returns_parsed_witness :
  outcome (run Sim.env
             (loadSegmentsFromFile Sample.extractor (js "/data/null.json"))
             Fixture.worldWithNull)
  = Returned JNull.
Proof.
  rewrite (loadSegmentsFromFile_returns_parsed Sample.extractor
             (js "/data/null.json") (js "null") JNull Sim.env
             Fixture.worldWithNull Fixture.worldWithNull
             Fixture.worldWithNull eq_refl eq_refl).
  reflexivity.
Defined.

(* ===================================================================== *)
(** * The other methods of the object-store gateway *)
(* ===================================================================== *)

Import StorageOps.

(** X8. [downloadFile] asks the client for the object exactly once, with
    the configured bucket and the name and path it was given, and ends as
    that request ended.  When the request failed it throws the client's own
    error, unchanged, after writing it to [console.error]; it makes no
    second attempt and writes no line of success.  When the request
    succeeded it returns, having written one line and no error. *)
Theorem downloadFile_rethrows
    (this : Storage.t) (fileName downloadPath : JsString)
    (E : Env) (s : St E) :
  let r := run E (Storage.downloadFile this fileName downloadPath) s in
  let request :=
    MinioFGetObject (Storage.bucketName this) fileName downloadPath in
  downloads (trace r)
  = [(Storage.bucketName this, fileName, downloadPath,
      succeeded (fst (answer E _ request s)))]
  /\ match fst (answer E _ request s) with
     | inr _ =>
         outcome r = Returned tt
         /\ errorsLogged (trace r) = []
         /\ length (omap logLine (trace r)) = 1%nat
     | inl error =>
         outcome r = Thrown error
         /\ omap logLine (trace r) = []
         /\ errorsLogged (trace r)
            = [[Lit ([0x274C]%N ++ js " Error downloading file '");
                Text fileName; Lit (js "':"); Val error]]
     end.
Proof.
  unfold Storage.downloadFile. cbn.
  destruct (answer E _
              (MinioFGetObject (Storage.bucketName this) fileName
                 downloadPath) s) as [[error|[]] s1]; cbn.
  - destruct (answer E _ (ConsoleError _) s1) as [[] s2]; cbn.
    repeat split; reflexivity.
  - destruct (answer E _ (ConsoleLog _) s1) as [[] s2]; cbn.
    repeat split; reflexivity.
Qed.

Lemma isNotFound_iff (code : JVal) :
  isNotFound code = true <-> code = JStr (js "NotFound").
Proof.
  unfold isNotFound, str_eqb. destruct code; try (split; congruence).
  rewrite bool_decide_eq_true. split; congruence.
Qed.

(** X10. [uploadAudioFile] asks the object store for exactly one upload, of
    the file's path under the file's name in the configured bucket.  It
    returns that name when the upload succeeded, and only then; when the
    upload failed it throws the client's own error, having written it to
    [console.error] and no line of success. *)
Theorem uploadAudioFile_result
    (this : Storage.t) (file : MulterFile) (H : Host) (s : HostState H) :
  let e := exec H (uploadAudioFile this file) s in
  let request :=
    MinioFPutObject (Storage.bucketName this) (filename file) (path file) in
  storeRequests (steps e)
  = [(PutObject (Storage.bucketName this) (filename file) (path file),
      succeeded (fst (reply H _ request s)))]
  /\ match fst (reply H _ request s) with
     | inr _ =>
         result e = Returned (filename file)
         /\ errors (steps e) = []
         /\ length (logged (steps e)) = 2%nat
     | inl error =>
         result e = Thrown error
         /\ logged (steps e) = []
         /\ errors (steps e)
            = [[Lit ([0x274C]%N ++ js " Error uploading file '");
                Text (filename file); Lit (js "':"); Val error]]
     end.
Proof.
  unfold uploadAudioFile, uploadFile. cbn.
  repeat reply_next; repeat split; reflexivity.
Qed.

(** X11. [deleteFile] asks the object store for exactly one removal and ends
    as that request ended: a failed removal, for whatever reason, is written
    to [console.error] and thrown again unchanged, never turned into a
    success. *)
Theorem deleteFile_forwards
    (this : Storage.t) (fileName : JsString) (H : Host) (s : HostState H) :
  let e := exec H (deleteFile this fileName) s in
  let request := MinioRemoveObject (Storage.bucketName this) fileName in
  storeRequests (steps e)
  = [(RemoveObject (Storage.bucketName this) fileName,
      succeeded (fst (reply H _ request s)))]
  /\ match fst (reply H _ request s) with
     | inr _ => result e = Returned tt /\ errors (steps e) = []
     | inl error =>
         result e = Thrown error
         /\ logged (steps e) = []
         /\ errors (steps e)
            = [[Lit ([0x274C]%N ++ js " Error deleting file '");
                Text fileName; Lit (js "':"); Val error]]
     end.
Proof.
  unfold deleteFile. cbn.
  repeat reply_next; repeat split; reflexivity.
Qed.

(** X12. [fileExists] asks the object store once for the object's
    metadata.  It returns [true] exactly when that request succeeded.  It
    returns [false] only when the request failed with an error whose [code]
    is 'NotFound', and then writes nothing; an error object with any other
    code is written to [console.error] and thrown again unchanged, so an
    outage is never reported as an absent file. *)
Theorem fileExists_result
    (this : Storage.t) (fileName : JsString) (H : Host) (s : HostState H) :
  let e := exec H (fileExists this fileName) s in
  let answer :=
    fst (reply H _ (MinioStatObject (Storage.bucketName this) fileName) s) in
  storeRequests (steps e)
  = [(StatObject (Storage.bucketName this) fileName, succeeded answer)]
  /\ (result e = Returned true <-> succeeded answer = true)
  /\ (result e = Returned false <->
      exists error : JVal,
        answer = inl error /\ codeOf error = inr (JStr (js "NotFound")))
  /\ (result e = Returned false -> errors (steps e) = [])
  /\ (forall (error : JVal) (fields : list (JsString * JVal)),
        answer = inl error -> error = JObj fields ->
        Get fields (js "code") <> JStr (js "NotFound") ->
        result e = Thrown error
        /\ errors (steps e)
           = [[Lit ([0x274C]%N ++ js " Error checking file '");
               Text fileName; Lit (js "':"); Val error]]).
Proof.
  unfold fileExists. cbn.
  destruct (reply H _ (MinioStatObject (Storage.bucketName this) fileName) s)
    as [[error|[]] s1]; cbn.
  - destruct (codeOf error) as [typeError|code] eqn:Hcode; cbn.
    + split; [reflexivity|]. split; [split; discriminate|].
      split; [|split; [discriminate|]].
      * split; [discriminate|]. intros (error' & [= <-] & Hc). congruence.
      * intros error' fields [= <-] ->. discriminate.
    + destruct (isNotFound code) eqn:Hnf; cbn.
      * apply isNotFound_iff in Hnf. subst code.
        split; [reflexivity|]. split; [split; discriminate|].
        split; [|split; [reflexivity|]].
        -- split; [eauto | reflexivity].
        -- intros error' fields [= <-] -> Hne. cbn in Hcode. congruence.
      * destruct (reply H _ (Core (ConsoleError _)) s1) as [[] s2]; cbn.
        split; [reflexivity|]. split; [split; discriminate|].
        split; [|split; [discriminate|]].
        -- split; [discriminate|].
           intros (error' & [= <-] & Hc). rewrite Hcode in Hc.
           injection Hc as ->. discriminate.
        -- intros error' fields [= <-] -> _. split; reflexivity.
  - split; [reflexivity|]. split; [split; reflexivity|].
    split; [|split; [discriminate|]].
    + split; [discriminate|]. intros (error & [=] & _).
    + intros error fields [=].
Qed.

Lemma fileExists_result_witness :
  result (exec WideSim.host (fileExists WideSim.storage (js "missing.wav"))
            WideSim.world) = Returned false
  /\ errors (steps (exec WideSim.host
                      (fileExists WideSim.storage (js "missing.wav"))
                      WideSim.world)) = [].
Proof.
  destruct (fileExists_result WideSim.storage (js "missing.wav")
              WideSim.host WideSim.world) as (_ & _ & Hfalse & Hquiet & _).
  assert (Hres : result (exec WideSim.host
                           (fileExists WideSim.storage (js "missing.wav"))
                           WideSim.world) = Returned false).
  { apply Hfalse. exists (Sim.error "NotFound"). split; reflexivity. }
  split; [exact Hres | exact (Hquiet Hres)].
Defined.

Example fileExists_present :
  result (exec WideSim.host (fileExists WideSim.storage (js "f1.wav"))
            WideSim.world) = Returned true.
Proof. reflexivity. Qed.

(* ===================================================================== *)
(** * The Kafka consumer *)
(* ===================================================================== *)

Import KafkaConsumer.

Section ConsumerRuns.

Context (H : Host).

Lemma shutdownKafkaConsumer_exec (consumer : Handle) (s : HostState H) :
  let e := exec H (shutdownKafkaConsumer consumer) s in
  result e = Returned tt
  /\ exists ok : bool,
       consumerCalls (steps e) = [(consumer, Disconnect, ok)]
       /\ length (errors (steps e)) = (if ok then 0 else 1)%nat.
Proof.
  unfold shutdownKafkaConsumer. cbn.
  repeat reply_next; (split; [reflexivity|]); eexists; split; reflexivity.
Qed.

Lemma startKafkaConsumer_exec (options : KafkaConsumerOptions)
    (s : HostState H) :
  let e := exec H (startKafkaConsumer options) s in
  match consumersCreated (steps e) with
  | [] =>
      (exists error : JVal, result e = Thrown error)
      /\ consumerCalls (steps e) = []
      /\ registrations (steps e) = []
  | consumer :: more =>
      more = []
      /\ result e = Returned tt
      /\ registrations (steps e)
         = [(js "SIGTERM", ShutdownListener consumer);
            (js "SIGINT", ShutdownListener consumer)]
      /\ map fst (consumerCalls (steps e))
         `prefix_of` [(consumer, Connect);
                      (consumer, Subscribe (topic options) false);
                      (consumer, RunWith (eachMessageHandler options))]
      /\ forallb snd (removelast (consumerCalls (steps e))) = true
      /\ (if forallb snd (consumerCalls (steps e))
          then length (consumerCalls (steps e)) = 3%nat
               /\ errors (steps e) = []
          else length (errors (steps e)) = 1%nat)
  end.
Proof.
  unfold startKafkaConsumer. cbn.
  repeat reply_next;
    try (split; [eexists; reflexivity|]; split; reflexivity);
    (split; [reflexivity|]); (split; [reflexivity|]);
    (split; [reflexivity|]); (split; [eexists; reflexivity|]);
    split; try reflexivity; split; reflexivity.
Qed.

End ConsumerRuns.

(** X13. [shutdownKafkaConsumer] never throws: it asks the consumer to
    disconnect, once, and when that fails it writes the error to
    [console.error] and returns all the same. *)
Theorem shutdownKafkaConsumer_never_throws
    (consumer : Handle) (H : Host) (s : HostState H) :
  let e := exec H (shutdownKafkaConsumer consumer) s in
  result e = Returned tt
  /\ exists ok : bool,
       consumerCalls (steps e) = [(consumer, Disconnect, ok)]
       /\ length (errors (steps e)) = (if ok then 0 else 1)%nat.
Proof.
  unfold shutdownKafkaConsumer. cbn.
  destruct (reply H _ (Core (ConsoleLog _)) s) as [[] s1]; cbn.
  destruct (reply H _ (ConsumerDisconnect consumer) s1) as [[error|[]] s2];
    cbn.
  - destruct (reply H _ (Core (ConsoleError _)) s2) as [[] s3]; cbn.
    split; [reflexivity|]. exists false. split; reflexivity.
  - destruct (reply H _ (Core (ConsoleLog _)) s2) as [[] s3]; cbn.
    split; [reflexivity|]. exists true. split; reflexivity.
Qed.

(** X14. Once [kafka.consumer] has returned a consumer, [startKafkaConsumer]
    never throws, and it registers the shutdown of that consumer for SIGTERM
    and for SIGINT whether or not the consumer could be started.  It
    connects, subscribes to the topic (not from the beginning) and runs the
    handler, in that order, and gives up at the first of these that fails,
    writing one error; when none fails it writes none.  When no consumer
    could be created it throws, having called no consumer and registered
    nothing. *)
Theorem startKafkaConsumer_registers_shutdown
    (options : KafkaConsumerOptions) (H : Host) (s : HostState H) :
  let e := exec H (startKafkaConsumer options) s in
  match consumersCreated (steps e) with
  | [] =>
      (exists error : JVal, result e = Thrown error)
      /\ consumerCalls (steps e) = []
      /\ registrations (steps e) = []
  | consumer :: more =>
      more = []
      /\ result e = Returned tt
      /\ registrations (steps e)
         = [(js "SIGTERM", ShutdownListener consumer);
            (js "SIGINT", ShutdownListener consumer)]
      /\ map fst (consumerCalls (steps e))
         `prefix_of` [(consumer, Connect);
                      (consumer, Subscribe (topic options) false);
                      (consumer, RunWith (eachMessageHandler options))]
      /\ forallb snd (removelast (consumerCalls (steps e))) = true
      /\ (if forallb snd (consumerCalls (steps e))
          then length (consumerCalls (steps e)) = 3%nat
               /\ errors (steps e) = []
          else length (errors (steps e)) = 1%nat)
  end.
Proof.
  unfold startKafkaConsumer. cbn.
  destruct (reply H _ GetKafkaConnection s) as [[error|kafka] s1]; cbn.
  { split; [now exists error|]. split; reflexivity. }
  destruct (reply H _ (KafkaConsumer kafka (groupId options)) s1)
    as [[error|consumer] s2]; cbn.
  { split; [now exists error|]. split; reflexivity. }
  repeat reply_next;
    (split; [reflexivity|]); (split; [reflexivity|]);
    (split; [reflexivity|]); (split; [eexists; reflexivity|]);
    split; try reflexivity; split; reflexivity.
Qed.

Example startKafkaConsumer_broker_down :
  let e := exec WideSim.host (startKafkaConsumer WideSim.options)
             WideSim.kafkaDown in
  result e = Returned tt
  /\ consumerCalls (steps e) = [(2%N, Connect, false)]
  /\ registrations (steps e)
     = [(js "SIGTERM", ShutdownListener 2%N); (js "SIGINT", ShutdownListener 2%N)].
Proof. cbv zeta. repeat split; reflexivity. Qed.

(** X15. The listeners that [startKafkaConsumer] registers shut down the
    consumer it created: when the signal arrives, the listener disconnects
    that consumer, and no other, and does not throw. *)
Theorem startKafkaConsumer_listener_disconnects
    (options : KafkaConsumerOptions) (H : Host) (s : HostState H)
    (signal : JsString) (listener : Listener) :
  In (signal, listener)
     (registrations (steps (exec H (startKafkaConsumer options) s))) ->
  exists consumer : Handle,
    consumersCreated (steps (exec H (startKafkaConsumer options) s))
    = [consumer]
    /\ forall (H' : Host) (s' : HostState H'),
         result (exec H' (listen listener) s') = Returned tt
         /\ map fst (consumerCalls (steps (exec H' (listen listener) s')))
            = [(consumer, Disconnect)].
Proof.
  intros Hin.
  pose proof (startKafkaConsumer_exec H options s) as Hstart.
  cbv zeta in Hstart.
  destruct (consumersCreated (steps (exec H (startKafkaConsumer options) s)))
    as [|consumer more].
  - destruct Hstart as (_ & _ & Hnone). rewrite Hnone in Hin. destruct Hin.
  - destruct Hstart as (-> & _ & Hreg & _). exists consumer.
    split; [reflexivity|]. intros H' s'.
    rewrite Hreg in Hin.
    assert (Hl : listener = ShutdownListener consumer)
      by (destruct Hin as [[= _ <-]|[[= _ <-]|[]]]; reflexivity).
    subst listener. cbn [listen].
    destruct (shutdownKafkaConsumer_exec H' consumer s')
      as (Hres & ok & Hcalls & _).
    split; [exact Hres|]. now rewrite Hcalls.
Qed.

Lemma startKafkaConsumer_listener_disconnects_witness :
  In (js "SIGINT", ShutdownListener 2%N)
     (registrations
        (steps (exec WideSim.host (startKafkaConsumer WideSim.options)
                  WideSim.kafkaDown)))
  /\ exists consumer : Handle,
       consumersCreated
         (steps (exec WideSim.host (startKafkaConsumer WideSim.options)
                   WideSim.kafkaDown)) = [consumer]
       /\ result (exec WideSim.host (listen (ShutdownListener 2%N))
                    WideSim.world) = Returned tt.
Proof.
  assert (Hin : In (js "SIGINT", ShutdownListener 2%N)
                   (registrations
                      (steps (exec WideSim.host
                                (startKafkaConsumer WideSim.options)
                                WideSim.kafkaDown))))
    by (right; left; reflexivity).
  split; [exact Hin|].
  destruct (startKafkaConsumer_listener_disconnects WideSim.options
              WideSim.host WideSim.kafkaDown (js "SIGINT")
              (ShutdownListener 2%N) Hin) as (consumer & Hcreated & Hlisten).
  exists consumer. split; [exact Hcreated|].
  exact (proj1 (Hlisten WideSim.host WideSim.world)).
Defined.

(* ===================================================================== *)
(** * Starting the worker *)
(* ===================================================================== *)

Import WorkerStart.

(** X16. The [try] of [startWorker] does not cover [connectAmqp]: when the
    connection fails, [startWorker] throws that error, having written
    nothing and consumed nothing.  With a channel, it never throws: it asks
    once to consume the task queue on that channel, and when that call
    throws it writes the error to [console.error] and does not announce that
    it is listening. *)
Theorem startWorker_result
    (taskQueue : JsString) (H : Host) (s : HostState H) :
  let e := exec H (startWorker taskQueue) s in
  match fst (reply H _ ConnectAmqp s) with
  | inl error =>
      result e = Thrown error
      /\ console (steps e) = []
      /\ consumptions (steps e) = []
  | inr channel =>
      result e = Returned tt
      /\ exists ok : bool,
           consumptions (steps e) = [(channel, taskQueue, ok)]
           /\ length (errors (steps e)) = (if ok then 0 else 1)%nat
           /\ length (logged (steps e)) = (if ok then 2 else 1)%nat
  end.
Proof.
  unfold startWorker. cbn.
  repeat reply_next; repeat split;
    try (eexists; repeat split; reflexivity).
Qed.

(* ===================================================================== *)
(** * The application object *)
(* ===================================================================== *)

(** X17. [new App()] creates the server, the request/response service, the
    Kafka response consumer and the Kafka-to-RabbitMQ consumer, in this
    order, and the response consumer is given the topic and group of the
    configuration and the very service that the application keeps as
    [requestResponseService].  When a constructor throws, the ones after it
    are not called. *)
Theorem App_new_wiring
    (config : App.Config) (H : Host) (s : HostState H) :
  let e := exec H (App.new config) s in
  match result e with
  | Returned app =>
      creations (steps e)
      = [(TheServer, Some (App.server app));
         (TheRequestResponseService, Some (App.requestResponseService app));
         (TheKafkaResponseConsumer (App.kafka_topics_response config)
            (App.kafka_groupId config) (App.requestResponseService app),
          Some (App.kafkaResponseConsumer app));
         (TheKafkaToRabbitMQConsumer,
          Some (App.kafkaToRabbitMQConsumer app))]
  | Thrown _ =>
      snd <$> last (creations (steps e)) = Some None
      /\ forallb (fun c => bool_decide (is_Some (snd c)))
           (removelast (creations (steps e))) = true
  end.
Proof.
  unfold App.new, App.initializeKafkaConsumer. cbn.
  destruct (reply H _ NewServer s) as [[error|server] s1]; cbn;
    [split; reflexivity|].
  destruct (reply H _ NewRequestResponseService s1) as [[error|service] s2];
    cbn; [split; reflexivity|].
  destruct (reply H _ (NewKafkaResponseConsumer _ _ service) s2)
    as [[error|consumer] s3]; cbn; [split; reflexivity|].
  destruct (reply H _ NewKafkaToRabbitMQConsumer s3) as [[error|bridge] s4];
    cbn; [split; reflexivity | reflexivity].
Qed.

(** X18. [getInstance] keeps one instance: after a call that returns, the
    static field holds the instance that was returned, which is the one the
    field held before if it held one; every later call returns that same
    instance and creates nothing. *)
Theorem App_getInstance_singleton
    (config : App.Config) (instance instance' : option App.t) (app : App.t)
    (H : Host) (s : HostState H) :
  result (exec H (App.getInstance config instance) s)
  = Returned (app, instance') ->
  instance' = Some app
  /\ (forall held : App.t, instance = Some held -> app = held)
  /\ forall (H' : Host) (s' : HostState H'),
       exec H' (App.getInstance config instance') s'
       = {| steps := []; result := Returned (app, instance'); after := s' |}.
Proof.
  intros Hres.
  assert (Hfield : instance' = Some app).
  { destruct instance as [held|]; cbn in Hres; [congruence|].
    revert Hres. unfold App.new, App.initializeKafkaConsumer. cbn.
    repeat reply_next; congruence. }
  split; [exact Hfield|]. split.
  - intros held ->. cbn in Hres. congruence.
  - intros H' s'. subst instance'. reflexivity.
Qed.

Lemma App_getInstance_singleton_witness :
  exists app : App.t,
    result (exec WideSim.host (App.getInstance WideSim.appConfig None)
              WideSim.world) = Returned (app, Some app)
    /\ steps (exec WideSim.host
                (App.getInstance WideSim.appConfig (Some app))
                WideSim.world) = [].
Proof.
  eexists. split; [reflexivity|].
  destruct (App_getInstance_singleton WideSim.appConfig None _ _
              WideSim.host WideSim.world eq_refl) as (_ & _ & Hlater).
  now rewrite (Hlater WideSim.host WideSim.world).
Defined.

(** X19. [start] starts the server, the response consumer and the
    Kafka-to-RabbitMQ consumer, in this order, and stops at the first that
    throws: the components after it are not started, the error is thrown on
    and the line announcing the port is not written.  The line is written,
    once, exactly when all three were started. *)
Theorem App_start_order
    (config : App.Config) (this : App.t) (H : Host) (s : HostState H) :
  let e := exec H (App.start config this) s in
  map fst (starts (steps e))
  `prefix_of` [App.server this; App.kafkaResponseConsumer this;
               App.kafkaToRabbitMQConsumer this]
  /\ forallb snd (removelast (starts (steps e))) = true
  /\ (if forallb snd (starts (steps e))
      then length (starts (steps e)) = 3%nat
           /\ result e = Returned tt
           /\ length (logged (steps e)) = 1%nat
      else (exists error : JVal, result e = Thrown error)
           /\ logged (steps e) = [])
  /\ errors (steps e) = [].
Proof.
  unfold App.start. cbn.
  repeat reply_next;
    (split; [eexists; reflexivity|]); (split; [reflexivity|]);
    (split; [|reflexivity]);
    first [ repeat split; reflexivity
          | split; [eexists; reflexivity | reflexivity] ].
Qed.
